(** * Bucket-occupancy histograms of the hash quality test

    A shallow embedding of [scripts_plot_hash_bucket_histograms.py]
    (pbj-integration-tests, hashing/qualitytest): the loader of the
    metadata/counts pair, the histogram computation, the overlay alignment
    and normalisation, the file naming and the driver's exit behaviour.

    Conventions.
    - A Python [str] is a list of Unicode code points ([char := N]).
    - A NumPy integer array is a [list Z]; [astype(np.int64)] and the
      integer sum wrap as two's complement does.
    - A Python exception is a value of [exn]; a call that may raise returns
      a [result].
    - Everything the script takes from its runtime (Unicode tables, host
      byte order, pathlib, the file system, matplotlib) is a field of the
      record [platform]; theorems hold for every platform.
    - A run starts from the parsed command line ([args]): what argparse
      refuses never reaches [main]'s body.
    - A chart keeps the arguments of [poisson_expected_counts] in the
      place of the curve; the function itself is embedded in float64 (the
      kernel's binary64) over a parameter for the C library's [math.exp]. *)

From Stdlib Require Import ZArith Lia String Ascii Floats.
From Stdlib.Strings Require Import Byte.
From Stdlib Require DecimalString.
From stdpp Require Import base numbers list.

Local Open Scope Z_scope.

(** ** Python values *)

Abbreviation char := N (only parsing).
Abbreviation str := (list N) (only parsing).

(** A literal of the script, given as a Rocq string of ASCII characters. *)
Definition lit (s : string) : str := map N_of_ascii (list_ascii_of_string s).

Inductive exn : Type :=
  | SystemExit (msg : str)
  | ValueError (msg : str)
  | IndexError
  | ZeroDivisionError
  | OSError (msg : str).

Inductive result (A : Type) : Type :=
  | Ok (a : A)
  | Raise (e : exn).
Arguments Ok {A} a.
Arguments Raise {A} e.

#[global] Instance result_ret : MRet result := fun A a => Ok a.
#[global] Instance result_bind : MBind result := fun A B f r =>
  match r with
  | Ok a => f a
  | Raise e => Raise e
  end.

(** ** NumPy arrays of integers *)

Module np.

(** Two's complement reading of [x] on [w] bits. *)
Definition wrap_signed (w x : Z) : Z := (x + 2 ^ (w - 1)) mod 2 ^ w - 2 ^ (w - 1).

Definition astype_int64 (a : list Z) : list Z := map (wrap_signed 64) a.

Definition size (a : list Z) : Z := Z.of_nat (length a).

(** [a[:n]] *)
Definition slice_to {A} (a : list A) (n : Z) : list A :=
  if n <? 0 then take (Z.to_nat (Z.of_nat (length a) + n)) a
  else take (Z.to_nat n) a.

(** [np.arange(0, n, dtype=np.int64)] *)
Definition arange0 (n : Z) : list Z := seqZ 0 n.

(** [a.max()]: refused on an empty array. *)
Definition amax (a : list Z) : result Z :=
  match a with
  | [] =>
      Raise (ValueError (lit
        "zero-size array to reduction operation maximum which has no identity"))
  | v :: a' => Ok (foldl Z.max v a')
  end.

(** The loop of [np.bincount]: one increment per input value. *)
Definition tally (out : list Z) (x : list Z) : list Z :=
  foldl (fun out v => alter Z.succ (Z.to_nat v) out) out x.

(** [np.bincount(x)] for a one-dimensional integer array, [minlength=0]:
    an empty input gives an empty array, a negative entry is refused,
    otherwise the output has [max(x) + 1] bins. *)
Definition bincount (x : list Z) : result (list Z) :=
  if existsb (fun v => v <? 0) x then
    Raise (ValueError (lit "'list' argument must have no negative elements"))
  else
    match x with
    | [] => Ok []
    | v :: x' => Ok (tally (replicate (Z.to_nat (foldl Z.max v x' + 1)) 0) x)
    end.

(** [int64 -> float64], to nearest even. *)
Definition float_of_int (z : Z) : float :=
  SF2Prim (SpecFloat.binary_normalize prec emax z 0 false).

(** [a / b] on int64 operands: both are converted, the quotient is a
    float64 (a zero divisor gives inf or nan and a warning, no exception). *)
Definition true_divide (a b : Z) : float :=
  PrimFloat.div (float_of_int a) (float_of_int b).

(** The mathematical sum of the entries. *)
Definition total (a : list Z) : Z := foldr Z.add 0 a.

(** [a.sum()] of an int64 array. *)
Definition sum_int64 (a : list Z) : Z := wrap_signed 64 (total a).

End np.

(** ** HistogramComputer *)

Definition compute_hist (counts : list Z) (max_k : option Z)
  : result (list Z * list Z) :=
  hist ← np.bincount (np.astype_int64 counts);
  let max_k :=
    match max_k with
    | None => np.size hist - 1
    | Some m => Z.min m (np.size hist - 1)
    end in
  let k := np.arange0 (max_k + 1) in
  let y := np.slice_to hist (max_k + 1) in
  Ok (k, y).

(** The number of entries of [a] equal to [k]. *)
Definition occurrences (k : Z) (a : list Z) : Z :=
  Z.of_nat (length (filter (fun v => v = k) a)).

(** The largest entry, characterised. *)
Definition is_max (top : Z) (a : list Z) : Prop :=
  top ∈ a /\ Forall (fun v => v <= top) a.

(** The entries a signed 64-bit cast leaves alone. *)
Definition int63_nonneg (v : Z) : Prop := 0 <= v < 2 ^ 63.


(** ** Strings *)

(** [s.startswith(prefix)] *)
Fixpoint startswith (s prefix : str) : bool :=
  match prefix, s with
  | [], _ => true
  | _ :: _, [] => false
  | p :: prefix', c :: s' => (c =? p)%N && startswith s' prefix'
  end.

(** [c in chars] for a one-character [c]. *)
Definition char_in (c : char) (chars : str) : bool := existsb (N.eqb c) chars.

(** [str(z)] of an integer: decimal digits, a leading minus sign. *)
Definition str_of_int (z : Z) : str :=
  lit (DecimalString.NilZero.string_of_int (Z.to_int z)).

(** Order of [str]: code point by code point, a proper prefix first. *)
Fixpoint str_leb (s t : str) : bool :=
  match s, t with
  | [], _ => true
  | _ :: _, [] => false
  | c :: s', d :: t' => (c <? d)%N || ((c =? d)%N && str_leb s' t')
  end.

Fixpoint insert_sorted (s : str) (l : list str) : list str :=
  match l with
  | [] => [s]
  | t :: l' => if str_leb s t then s :: l else t :: insert_sorted s l'
  end.

(** [sorted(l)] on strings. *)
Definition sorted (l : list str) : list str := foldr insert_sorted [] l.

(** ** The data model *)

(** The metadata descriptor, [<ALG>.meta.json]: the six fields the module
    docstring lists, with the types the script converts them to.
    [endianness], the one field read with [meta.get], is [None] when the
    key is absent and otherwise holds the text [str()] gives for the
    declared value. *)
Record AlgorithmMeta : Type := {
  algorithm : str;
  numBuckets : Z;
  numInputs : Z;
  countsFile : str;
  countsDtype : str;
  endianness : option str
}.

Inductive byteorder : Type := LittleEndian | BigEndian.

(** The three values [dtype] takes in [load_algorithm]: [np.int32] (host
    byte order), [np.dtype("<i4")] and [np.dtype(">i4")]. *)
Inductive dtype : Type := int32 | i4_le | i4_be.

(** One (meta, k, y) entry of [overlay_data]. *)
Abbreviation table := (AlgorithmMeta * list Z * list Z)%type (only parsing).

(** What a chart shows. The Poisson curve of the per-algorithm chart is
    kept by the arguments [poisson_expected_counts] is called with:
    [k.max()], the rate [num_inputs / num_buckets] by its two integers, and
    [num_buckets]. *)
Record poisson_curve : Type := {
  pc_max_k : Z;
  pc_num_inputs : Z;
  pc_num_buckets : Z
}.

Inductive series : Type :=
  | Counts (y : list Z)
  | Fractions (y : list float).

Inductive figure : Type :=
  | PerAlgorithm (alg : str) (k y : list Z) (curve : option poisson_curve)
      (logy : bool)
  | OverlayChart (lines : list (str * list Z * series)) (logy : bool).

(** ** The runtime

    What the script asks of CPython, NumPy, pathlib, the operating system
    and matplotlib. Paths are kept as the strings [str(path)] gives. *)
Record platform : Type := {
  (** [c.isalnum()], from the Unicode database *)
  str_isalnum : char -> bool;
  (** [s.lower()] *)
  str_lower : str -> str;
  (** [sys.byteorder], the order of [np.int32] *)
  sys_byteorder : byteorder;
  (** [Path(s)] *)
  Path : str -> str;
  (** [p.parent] *)
  path_parent : str -> str;
  (** [p / s] *)
  path_join : str -> str -> str;
  (** [p.exists()] *)
  path_exists : str -> bool;
  (** [p.mkdir(parents=True, exist_ok=True)] *)
  path_mkdir : str -> result unit;
  (** [glob.glob(pattern)] *)
  glob_glob : str -> list str;
  (** [open(p)] then [json.load(f)], read as a descriptor *)
  json_load : str -> result AlgorithmMeta;
  (** the bytes [np.fromfile(p, ...)] finds in the file *)
  read_bytes : str -> result (list byte);
  (** the float64 values of a chart, the matplotlib calls that draw it and
      [fig.savefig(p)]; an exception of any of them is this call's *)
  savefig : str -> figure -> result unit
}.

(** What a run leaves behind. *)
Record effects : Type := {
  made_dirs : list str;
  saved : list (str * figure);
  printed : list str
}.

Definition no_effects : effects :=
  {| made_dirs := []; saved := []; printed := [] |}.

(** A computation that may raise and that adds to the effects; what was
    done before an exception stays done. *)
Record io (A : Type) : Type := Io { run : effects -> result A * effects }.
Arguments Io {A} run.
Arguments run {A} _ _.

#[global] Instance io_ret : MRet io := fun A a => Io (fun s => (Ok a, s)).
#[global] Instance io_bind : MBind io := fun A B f m =>
  Io (fun s =>
        match run m s with
        | (Ok a, s') => run (f a) s'
        | (Raise e, s') => (Raise e, s')
        end).

Definition lift {A} (r : result A) : io A := Io (fun s => (r, s)).
Definition raise {A} (e : exn) : io A := lift (Raise e).

Definition print (line : str) : io unit :=
  Io (fun s =>
        (Ok (),
         {| made_dirs := made_dirs s; saved := saved s;
            printed := printed s ++ [line] |})).

(** ** Reading little- and big-endian int32 *)

Definition byte_val (b : byte) : Z := Z.of_N (Byte.to_N b).

Definition decode_i4 (o : byteorder) (b0 b1 b2 b3 : byte) : Z :=
  let u :=
    match o with
    | LittleEndian =>
        Z.lor (byte_val b0)
          (Z.lor (Z.shiftl (byte_val b1) 8)
             (Z.lor (Z.shiftl (byte_val b2) 16) (Z.shiftl (byte_val b3) 24)))
    | BigEndian =>
        Z.lor (byte_val b3)
          (Z.lor (Z.shiftl (byte_val b2) 8)
             (Z.lor (Z.shiftl (byte_val b1) 16) (Z.shiftl (byte_val b0) 24)))
    end in
  np.wrap_signed 32 u.

(** The items of a binary file read four bytes at a time; bytes after
    the last whole item are not read. *)
Fixpoint items_i4 (o : byteorder) (raw : list byte) : list Z :=
  match raw with
  | b0 :: b1 :: b2 :: b3 :: rest => decode_i4 o b0 b1 b2 b3 :: items_i4 o rest
  | _ => []
  end.

(** ** The script *)

Section Script.

Context (P : platform).

(** *** MetaLoader *)

(** Lines 33 to 37: the dtype chosen from the [endianness] field. *)
Definition counts_dtype (meta : AlgorithmMeta) : dtype :=
  let declared := default (lit "little") (endianness meta) in
  if startswith (str_lower P declared) (lit "little") then i4_le
  else if startswith (str_lower P declared) (lit "big") then i4_be
  else int32.

Definition dtype_order (d : dtype) : byteorder :=
  match d with
  | int32 => sys_byteorder P
  | i4_le => LittleEndian
  | i4_be => BigEndian
  end.

(** [np.fromfile(path, dtype=d)] *)
Definition np_fromfile (path : str) (d : dtype) : result (list Z) :=
  raw ← read_bytes P path;
  Ok (items_i4 (dtype_order d) raw).

Definition size_mismatch (size : Z) (meta : AlgorithmMeta) (meta_path : str)
  : str :=
  lit "Counts size " ++ str_of_int size ++ lit " != numBuckets "
    ++ str_of_int (numBuckets meta) ++ lit " for " ++ meta_path.

Definition load_algorithm (meta_path : str)
  : result (AlgorithmMeta * list Z) :=
  meta ← json_load P meta_path;
  let counts_file := path_join P (path_parent P meta_path) (countsFile meta) in
  let dtype := counts_dtype meta in
  counts ← np_fromfile counts_file dtype;
  if decide (np.size counts ≠ numBuckets meta) then
    Raise (ValueError (size_mismatch (np.size counts) meta meta_path))
  else Ok (meta, counts).

(** *** Renderer *)

Definition sanitize_filename (s : str) : str :=
  concat (map (fun c => if str_isalnum P c || char_in c (lit "._-")
                        then [c] else lit "_") s).

Definition save (path : str) (fig : figure) : io unit :=
  Io (fun s =>
        match savefig P path fig with
        | Ok _ =>
            (Ok (),
             {| made_dirs := made_dirs s; saved := saved s ++ [(path, fig)];
                printed := printed s |})
        | Raise e => (Raise e, s)
        end).

(** The name of the image of one algorithm, line 101. *)
Definition per_algorithm_image (alg : str) : str :=
  lit "hist_" ++ sanitize_filename alg ++ lit ".png".

(** Of [plot_per_algorithm] two steps are kept as steps of their own: the
    division of line 83, as far as it raises [ZeroDivisionError], and
    [k.max()] of line 89. The drawing calls, [ax.bar] of line 86 among
    them, and the values of the Poisson curve are [savefig]'s, which is
    asked once both steps have passed. For a table whose k is empty and
    whose y is not, the source fails in [ax.bar] and this function in
    [k.max()]: which exception ends a failing call is the source's for
    these two steps only. *)
Definition plot_per_algorithm (meta : AlgorithmMeta) (k y : list Z)
    (out_dir : str) (show_poisson logy : bool) : io unit :=
  let alg := algorithm meta in
  let num_buckets := numBuckets meta in
  let num_inputs := numInputs meta in
  (* lam = num_inputs / num_buckets *)
  _ ← lift (if decide (num_buckets = 0) then Raise ZeroDivisionError else Ok ());
  curve ← lift (if show_poisson then
                  k_max ← np.amax k;
                  Ok (Some {| pc_max_k := k_max; pc_num_inputs := num_inputs;
                              pc_num_buckets := num_buckets |})
                else Ok None);
  let out_path := path_join P out_dir (per_algorithm_image alg) in
  save out_path (PerAlgorithm alg k y curve logy).

Definition overlay_line (normalize : bool) (t : table)
  : str * list Z * series :=
  let '(meta, k, y) := t in
  let label := algorithm meta in
  let y_plot :=
    if normalize then Fractions (map (fun v => np.true_divide v (np.sum_int64 y)) y)
    else Counts y in
  (label, k, y_plot).

Definition plot_overlay (alg_results : list table) (out_dir : str)
    (normalize logy : bool) : io unit :=
  let out_path := path_join P out_dir (lit "hist_overlay.png") in
  save out_path (OverlayChart (map (overlay_line normalize) alg_results) logy).

(** *** Driver *)

Record args : Type := {
  results_dir : str;
  max_k : option Z;
  overlay : bool;
  logy : bool
}.

(** [int(k[-1])] *)
Definition last_k (k : list Z) : result Z :=
  match last k with
  | Some v => Ok v
  | None => Raise IndexError
  end.

(** [min(...)] over a generator of integers (the message is CPython's up
    to 3.11; [main] never calls it on an empty list). *)
Definition py_min (l : list Z) : result Z :=
  match l with
  | [] => Raise (ValueError (lit "min() arg is an empty sequence"))
  | v :: l' => Ok (foldl Z.min v l')
  end.

Definition align_one (min_max_k : Z) (t : table) : result table :=
  let '(meta, k, y) := t in
  k_last ← last_k k;
  if decide (k_last > min_max_k) then
    Ok (meta, np.slice_to k (min_max_k + 1), np.slice_to y (min_max_k + 1))
  else Ok (meta, k, y).

(** Lines 173 to 179: the tables cut to the least of their last [k]. *)
Definition align (overlay_data : list table) : result (list table) :=
  lasts ← mapM (fun t : table => last_k (t.1.2)) overlay_data;
  min_max_k ← py_min lasts;
  mapM (align_one min_max_k) overlay_data.

(** The loop of lines 164 to 169; the result is [overlay_data]. *)
Fixpoint process (a : args) (out_dir : str) (meta_files : list str)
  : io (list table) :=
  match meta_files with
  | [] => mret []
  | meta_path_str :: rest =>
      let meta_path := Path P meta_path_str in
      loaded ← lift (load_algorithm meta_path);
      hist ← lift (compute_hist loaded.2 (max_k a));
      _ ← plot_per_algorithm loaded.1 hist.1 hist.2 out_dir true (logy a);
      more ← process a out_dir rest;
      mret ((loaded.1, hist.1, hist.2) :: more)
  end.

Definition mkdir (path : str) : io unit :=
  Io (fun s =>
        match path_mkdir P path with
        | Ok _ =>
            (Ok (),
             {| made_dirs := made_dirs s ++ [path]; saved := saved s;
                printed := printed s |})
        | Raise e => (Raise e, s)
        end).

Definition main (a : args) : io unit :=
  let run_dir := Path P (results_dir a) in
  if negb (path_exists P run_dir) then
    raise (SystemExit (lit "Directory not found: " ++ run_dir))
  else
    let meta_files :=
      sorted (glob_glob P (path_join P run_dir (lit "*.meta.json"))) in
    match meta_files with
    | [] => raise (SystemExit (lit "No *.meta.json files found in " ++ run_dir))
    | _ :: _ =>
        let out_dir := path_join P run_dir (lit "plots") in
        _ ← mkdir out_dir;
        overlay_data ← process a out_dir meta_files;
        _ ← (if overlay a then
               aligned ← lift (align overlay_data);
               plot_overlay aligned out_dir true (logy a)
             else mret ());
        print (lit "Done. Plots written to: " ++ out_dir)
    end.

End Script.

(** The exit status of the interpreter: 0 when [main] returns, 1 when
    [SystemExit] carries a message or an exception is not caught. *)
Definition exit_status (r : result unit) : Z :=
  match r with
  | Ok _ => 0
  | Raise _ => 1
  end.

(** The run of the script from [if __name__ == "__main__"]. *)
Definition run_script (P : platform) (a : args) : result unit * effects :=
  run (main P a) no_effects.

(** ** Statements' vocabulary *)

(** The code point of an ASCII character. *)
Definition chr (a : ascii) : char := N_of_ascii a.

(** The characters [sanitize_filename] keeps. *)
Definition kept (P : platform) (c : char) : Prop :=
  str_isalnum P c = true \/ c = chr "." \/ c = chr "_" \/ c = chr "-".

(** What [sanitize_filename] puts in the place of [c]. *)
Definition clean_char (P : platform) (c : char) : char :=
  if str_isalnum P c || char_in c (lit "._-") then c else chr "_".

(** A table as [compute_hist] builds it when it has a row at all: the k
    values 0 .. m and as many frequencies. *)
Definition hist_table (t : table) : Prop :=
  exists m, 0 <= m /\ t.1.2 = seqZ 0 (m + 1) /\ length t.2 = length t.1.2.

(** The last k of a table ([0] for a table with no row). *)
Definition top_k (t : table) : Z := default 0 (last t.1.2).

(** A table cut to the rows k = 0 .. [n]. *)
Definition cut_to (n : Z) (t : table) : table :=
  (t.1.1, seqZ 0 (n + 1), take (Z.to_nat (n + 1)) t.2).

(** The names [main] gives to its paths, and what it does once the
    directory and the descriptors are found. *)
Definition run_dir_of (P : platform) (a : args) : str :=
  Path P (results_dir a).

Definition meta_files_of (P : platform) (a : args) : list str :=
  sorted (glob_glob P (path_join P (run_dir_of P a) (lit "*.meta.json"))).

Definition out_dir_of (P : platform) (a : args) : str :=
  path_join P (run_dir_of P a) (lit "plots").

Definition after_checks (P : platform) (a : args) : io unit :=
  _ ← mkdir P (out_dir_of P a);
  overlay_data ← process P a (out_dir_of P a) (meta_files_of P a);
  _ ← (if overlay a then
         aligned ← lift (align overlay_data);
         plot_overlay P aligned (out_dir_of P a) true (logy a)
       else mret ());
  print (lit "Done. Plots written to: " ++ out_dir_of P a).

(** A computation that prints nothing. *)
Definition silent {A} (m : io A) : Prop :=
  forall s, printed (run m s).2 = printed s.

(** The byte order [load_algorithm] reads the counts file in. *)
Definition declared_order (P : platform) (meta : AlgorithmMeta) : byteorder :=
  dtype_order P (counts_dtype P meta).

(** ** A POSIX host with ASCII texts, for worked examples

    [isalnum] and [lower] are CPython's on ASCII code points; paths are
    relative and already in the form [Path] gives; every directory can be
    made and every chart drawn. *)

Module Host.

Definition isalnum (c : char) : bool :=
  ((48 <=? c) && (c <=? 57) || (65 <=? c) && (c <=? 90)
   || (97 <=? c) && (c <=? 122))%N.

Definition lower (s : str) : str :=
  map (fun c => if ((65 <=? c) && (c <=? 90))%N then (c + 32)%N else c) s.

Definition join (p s : str) : str :=
  if startswith s (lit "/") then s else p ++ lit "/" ++ s.

Fixpoint after_slash (r : str) : option str :=
  match r with
  | [] => None
  | c :: r' => if (c =? 47)%N then Some r' else after_slash r'
  end.

Definition parent (p : str) : str :=
  match after_slash (reverse p) with
  | Some r => reverse r
  | None => lit "."
  end.

Definition endswith (s suffix : str) : bool :=
  startswith (reverse s) (reverse suffix).

(** The files of a run directory. *)
Record files : Type := {
  dirs : list str;
  descriptors : list (str * AlgorithmMeta);
  binaries : list (str * list byte)
}.

Definition find {A} (p : str) (l : list (str * A)) : result A :=
  match list_find (fun e => e.1 = p) l with
  | Some (_, e) => Ok e.2
  | None => Raise (OSError (lit "[Errno 2] No such file or directory: " ++ p))
  end.

Definition glob (fs : files) (pattern : str) : list str :=
  filter (fun p => join (parent p) (lit "*.meta.json") = pattern
                   /\ endswith p (lit ".meta.json") = true)
         (map fst (descriptors fs)).

Definition platform_of (order : byteorder) (fs : files) : platform :=
  {| str_isalnum := isalnum;
     str_lower := lower;
     sys_byteorder := order;
     Path := fun s => s;
     path_parent := parent;
     path_join := join;
     path_exists := fun p => bool_decide (p ∈ dirs fs);
     path_mkdir := fun _ => Ok ();
     glob_glob := glob fs;
     json_load := fun p => find p (descriptors fs);
     read_bytes := fun p => find p (binaries fs);
     savefig := fun _ _ => Ok () |}.

(** Little-endian int32 items as bytes. *)
Definition le_bytes (v : Z) : list byte :=
  map (fun i => default x00 (Byte.of_N (Z.to_N (Z.land (Z.shiftr v (8 * i)) 255))))
      [0; 1; 2; 3].

Definition le_file (counts : list Z) : list byte := concat (map le_bytes counts).

Definition meta_of (alg : string) (buckets inputs : Z) (order : option string)
  : AlgorithmMeta :=
  {| algorithm := lit alg;
     numBuckets := buckets;
     numInputs := inputs;
     countsFile := lit alg ++ lit "_counts_i32_le.bin";
     countsDtype := lit "int32";
     endianness := lit <$> order |}.

(** A run directory with one algorithm: ten buckets holding one item each. *)
Definition one_algorithm : files :=
  {| dirs := [lit "run"];
     descriptors :=
       [(lit "run/A.meta.json", meta_of "A" 10 10 (Some "little"%string))];
     binaries :=
       [(lit "run/A_counts_i32_le.bin", le_file [1; 1; 1; 1; 1; 1; 1; 1; 1; 1])] |}.

(** Two algorithms with different largest occupancies. *)
Definition two_algorithms : files :=
  {| dirs := [lit "run"];
     descriptors :=
       [(lit "run/B.meta.json", meta_of "B" 4 5 (Some "little"%string));
        (lit "run/A.meta.json", meta_of "A" 2 1 (Some "little"%string))];
     binaries :=
       [(lit "run/A_counts_i32_le.bin", le_file [0; 1]);
        (lit "run/B_counts_i32_le.bin", le_file [0; 1; 2; 2])] |}.

(** A descriptor that declares five buckets over a file of four items. *)
Definition short_file : files :=
  {| dirs := [lit "run"];
     descriptors :=
       [(lit "run/A.meta.json", meta_of "A" 5 4 (Some "little"%string))];
     binaries := [(lit "run/A_counts_i32_le.bin", le_file [1; 0; 2; 1])] |}.

(** A descriptor whose counts file is missing. *)
Definition missing_counts : files :=
  {| dirs := [lit "run"];
     descriptors :=
       [(lit "run/A.meta.json", meta_of "A" 2 2 (Some "little"%string))];
     binaries := [] |}.

(** Counts of the declared length, one of them negative. *)
Definition negative_entry : files :=
  {| dirs := [lit "run"];
     descriptors :=
       [(lit "run/A.meta.json", meta_of "A" 2 2 (Some "little"%string))];
     binaries := [(lit "run/A_counts_i32_le.bin", le_file [1; -1])] |}.

(** A descriptor with an [endianness] text that is neither order. *)
Definition odd_endianness : files :=
  {| dirs := [lit "run"];
     descriptors :=
       [(lit "run/A.meta.json", meta_of "A" 1 1 (Some "middle"%string))];
     binaries := [(lit "run/A_counts_i32_le.bin", le_file [1])] |}.

Definition cli (dir : string) (cap : option Z) (with_overlay : bool) : args :=
  {| results_dir := lit dir; max_k := cap; overlay := with_overlay;
     logy := false |}.

End Host.

(** ** PoissonModel

    [poisson_expected_counts] computes in float64 ([float], the kernel's
    binary64) and asks [math.exp] of the C library, a parameter here. Two
    of its calls raise [OverflowError], which the driver's [exn] does not
    list. *)

Inductive py_exn : Type :=
  | Builtin (e : exn)
  | OverflowError (msg : str).

Inductive outcome (A : Type) : Type :=
  | Returns (a : A)
  | Raises (e : py_exn).
Arguments Returns {A} a.
Arguments Raises {A} e.

#[global] Instance outcome_ret : MRet outcome := fun A a => Returns a.
#[global] Instance outcome_bind : MBind outcome := fun A B f r =>
  match r with
  | Returns a => f a
  | Raises e => Raises e
  end.

(** A Python [int] as a float operand: the nearest float64, ties to even,
    refused when that is beyond the largest one. *)
Definition float_of_pyint (z : Z) : outcome float :=
  let f := np.float_of_int z in
  if PrimFloat.is_infinity f then
    Raises (OverflowError (lit "int too large to convert to float"))
  else Returns f.

(** [np.zeros(n, dtype=np.float64)] *)
Definition np_zeros (n : Z) : outcome (list float) :=
  if n <? 0 then
    Raises (Builtin (ValueError (lit "negative dimensions are not allowed")))
  else Returns (replicate (Z.to_nat n) 0%float).

(** [a[i] = v]: an index below zero counts from the end, an index out of
    bounds raises. *)
Definition np_setitem (a : list float) (i : Z) (v : float)
  : outcome (list float) :=
  let n := Z.of_nat (length a) in
  if (0 <=? i) && (i <? n) then Returns (<[Z.to_nat i := v]> a)
  else if (- n <=? i) && (i <? 0) then Returns (<[Z.to_nat (n + i) := v]> a)
  else Raises (Builtin IndexError).

(** [for k in ks: st = body(st, k)] *)
Fixpoint for_each {S} (body : S -> Z -> outcome S) (st : S) (ks : list Z)
  : outcome S :=
  match ks with
  | [] => Returns st
  | k :: ks' => st' ← body st k; for_each body st' ks'
  end.

Section Poisson.

(** [math.exp] *)
Context (math_exp : float -> outcome float).

(** The body of the loop of lines 52 to 54, on the pair of [p] and
    [exp_counts]. *)
Definition poisson_body (lam : float) (num_buckets : Z)
    (st : float * list float) (k : Z) : outcome (float * list float) :=
  let '(p, exp_counts) := st in
  d ← float_of_pyint (k + 1);
  let p := (p * lam / d)%float in
  n ← float_of_pyint num_buckets;
  exp_counts ← np_setitem exp_counts (k + 1) (p * n)%float;
  Returns (p, exp_counts).

Definition poisson_expected_counts (max_k : Z) (lam : float)
    (num_buckets : Z) : outcome (list float) :=
  exp_counts ← np_zeros (max_k + 1);
  p ← math_exp (- lam)%float;
  n ← float_of_pyint num_buckets;
  exp_counts ← np_setitem exp_counts 0 (p * n)%float;
  st ← for_each (poisson_body lam num_buckets) (p, exp_counts) (seqZ 0 max_k);
  Returns st.2.

End Poisson.

(** P(k) of the docstring in float64: P(0) is the value of [math.exp] and
    P(k+1) = P(k) * lam / (k+1), the product rounded before the quotient. *)
Fixpoint poisson_p (p0 lam : float) (k : nat) : float :=
  match k with
  | O => p0
  | S j => (poisson_p p0 lam j * lam / np.float_of_int (Z.of_nat (S j)))%float
  end.

(** The array the docstring describes: P(k) times the number of buckets
    for k below [count]. *)
Definition poisson_values (p0 lam n : float) (count : nat) : list float :=
  map (fun k => (poisson_p p0 lam k * n)%float) (seq 0 count).

(** A C library for the worked examples: [exp] by its Taylor polynomial of
    degree 24 in Horner form, which is 1 at both zeros, and out of range
    where the exponential exceeds the largest float64. *)
Module Libm.

Fixpoint horner (x : float) (k : nat) (terms : nat) : float :=
  match terms with
  | O => 1%float
  | S terms' =>
      (1 + x / np.float_of_int (Z.of_nat k) * horner x (S k) terms')%float
  end.

Definition exp (x : float) : outcome float :=
  if (0x1.62e42fefa39efp+9 <? x)%float then
    Raises (OverflowError (lit "math range error"))
  else Returns (horner x 1 24).

End Libm.

(** ** Whole runs *)

(** The body of the loop of lines 164 to 169, for one descriptor. *)
Definition process_one (P : platform) (a : args) (out_dir meta_path_str : str)
  : io table :=
  let meta_path := Path P meta_path_str in
  loaded ← lift (load_algorithm P meta_path);
  hist ← lift (compute_hist loaded.2 (max_k a));
  _ ← plot_per_algorithm P loaded.1 hist.1 hist.2 out_dir true (logy a);
  mret (loaded.1, hist.1, hist.2).

(** Where the chart of one table and the overlay are saved. *)
Definition image_path (P : platform) (out_dir : str) (t : table) : str :=
  path_join P out_dir (per_algorithm_image P (algorithm t.1.1)).

Definition overlay_path (P : platform) (out_dir : str) : str :=
  path_join P out_dir (lit "hist_overlay.png").

(** The chart of one table as the loop saves it: the table's k values and
    frequencies as bars, the Poisson curve up to the table's last k for the
    descriptor's [numInputs] and [numBuckets]. *)
Definition per_algorithm_chart (P : platform) (a : args) (out_dir : str)
    (t : table) : str * figure :=
  (image_path P out_dir t,
   PerAlgorithm (algorithm t.1.1) t.1.2 t.2
     (Some {| pc_max_k := top_k t; pc_num_inputs := numInputs t.1.1;
              pc_num_buckets := numBuckets t.1.1 |})
     (logy a)).

(** The overlay of the tables [aligned], normalised as [main] asks. *)
Definition overlay_chart (P : platform) (a : args) (out_dir : str)
    (aligned : list table) : str * figure :=
  (overlay_path P out_dir,
   OverlayChart (map (overlay_line true) aligned) (logy a)).

(** Lines 171 to 182 of [main]: what follows the loop. *)
Definition after_loop (P : platform) (a : args) (out_dir : str)
    (overlay_data : list table) : io unit :=
  _ ← (if overlay a then
         aligned ← lift (align overlay_data);
         plot_overlay P aligned out_dir true (logy a)
       else mret ());
  print (lit "Done. Plots written to: " ++ out_dir).

(** The effects of [main] once [plots] is made, before the loop. *)
Definition plots_made (out_dir : str) : effects :=
  {| made_dirs := [out_dir]; saved := []; printed := [] |}.

(** The effects [s] and the confirmation. *)
Definition confirmed (s : effects) (out_dir : str) : effects :=
  {| made_dirs := made_dirs s; saved := saved s;
     printed := printed s ++ [lit "Done. Plots written to: " ++ out_dir] |}.

(** The effects [s] and one more image. *)
Definition with_image (s : effects) (image : str * figure) : effects :=
  {| made_dirs := made_dirs s; saved := saved s ++ [image];
     printed := printed s |}.

(** The same runtime with another listing of the directory. *)
Definition with_glob (P : platform) (g : str -> list str) : platform :=
  {| str_isalnum := str_isalnum P;
     str_lower := str_lower P;
     sys_byteorder := sys_byteorder P;
     Path := Path P;
     path_parent := path_parent P;
     path_join := path_join P;
     path_exists := path_exists P;
     path_mkdir := path_mkdir P;
     glob_glob := g;
     json_load := json_load P;
     read_bytes := read_bytes P;
     savefig := savefig P |}.

(** * Properties *)

(** ** Arrays *)

Lemma wrap_signed_64_id (v : Z) :
  - 2 ^ 63 <= v < 2 ^ 63 -> np.wrap_signed 64 v = v.
Proof.
  intros Hv. unfold np.wrap_signed.
  rewrite Z.mod_small; lia.
Qed.

Lemma astype_int64_id (a : list Z) :
  Forall int63_nonneg a -> np.astype_int64 a = a.
Proof.
  unfold np.astype_int64. induction 1 as [|v a Hv _ IH]; simpl; [done|].
  rewrite IH, wrap_signed_64_id; [done|]. unfold int63_nonneg in Hv. lia.
Qed.

Lemma total_app (a b : list Z) : np.total (a ++ b) = np.total a + np.total b.
Proof. induction a as [|v a IH]; simpl; lia. Qed.

Lemma total_replicate_0 (n : nat) : np.total (replicate n 0) = 0.
Proof. induction n as [|n IH]; simpl; lia. Qed.

Lemma total_alter_succ (l : list Z) (i : nat) :
  (i < length l)%nat -> np.total (alter Z.succ i l) = np.total l + 1.
Proof.
  revert i. induction l as [|v l IH]; intros [|i] Hi; simpl in Hi; try lia.
  - simpl. lia.
  - change (alter Z.succ (S i) (v :: l)) with (v :: alter Z.succ i l).
    simpl. rewrite IH; lia.
Qed.

Lemma occurrences_nil (k : Z) : occurrences k [] = 0.
Proof. reflexivity. Qed.

Lemma occurrences_cons (k v : Z) (a : list Z) :
  occurrences k (v :: a) = (if decide (v = k) then 1 else 0) + occurrences k a.
Proof.
  unfold occurrences. rewrite filter_cons.
  destruct (decide (v = k)); simpl; lia.
Qed.

Lemma occurrences_nonneg (k : Z) (a : list Z) : 0 <= occurrences k a.
Proof. unfold occurrences. lia. Qed.

Lemma tally_length (x out : list Z) : length (np.tally out x) = length out.
Proof.
  unfold np.tally. revert out.
  induction x as [|v x IH]; intros out; simpl; [done|].
  rewrite IH. apply length_alter.
Qed.

Lemma tally_lookup (x out : list Z) (j : nat) :
  Forall (fun v => 0 <= v) x ->
  np.tally out x !! j = (fun c => c + occurrences (Z.of_nat j) x) <$> out !! j.
Proof.
  unfold np.tally. intros Hx. revert out.
  induction Hx as [|v x Hv _ IH]; intros out; simpl.
  - rewrite occurrences_nil. destruct (out !! j) as [c|]; simpl; [|done].
    f_equal. lia.
  - rewrite IH, occurrences_cons, list_lookup_alter.
    destruct (decide (Z.to_nat v = j)) as [<-|Hne].
    + rewrite decide_True by lia.
      destruct (out !! Z.to_nat v) as [c|]; simpl; [|done]. f_equal. lia.
    + rewrite decide_False by lia.
      destruct (out !! j) as [c|]; simpl; [|done]. f_equal; lia.
Qed.

Lemma tally_total (x out : list Z) :
  Forall (fun v => 0 <= v < Z.of_nat (length out)) x ->
  np.total (np.tally out x) = np.total out + Z.of_nat (length x).
Proof.
  unfold np.tally. intros Hx. revert out Hx.
  induction x as [|v x IH]; intros out Hx; simpl; [lia|].
  inversion Hx as [|? ? Hv Hx']; subst.
  rewrite IH.
  - rewrite total_alter_succ; lia.
  - rewrite length_alter. done.
Qed.

Lemma foldl_max_ge (a : list Z) (v : Z) : v <= foldl Z.max v a.
Proof.
  revert v. induction a as [|w a IH]; intros v; simpl; [lia|].
  specialize (IH (Z.max v w)). lia.
Qed.

Lemma foldl_max_bound (a : list Z) (v : Z) :
  Forall (fun w => w <= foldl Z.max v a) a.
Proof.
  revert v. induction a as [|w a IH]; intros v; simpl; constructor.
  - pose proof (foldl_max_ge a (Z.max v w)). lia.
  - apply IH.
Qed.

Lemma foldl_max_elem (a : list Z) (v : Z) :
  foldl Z.max v a = v \/ foldl Z.max v a ∈ a.
Proof.
  revert v. induction a as [|w a IH]; intros v; simpl; [by left|].
  destruct (IH (Z.max v w)) as [H|H].
  - rewrite H. destruct (Z.max_spec v w) as [[_ ->]|[_ ->]].
    + right. left.
    + by left.
  - right. by right.
Qed.

Lemma foldl_max_is_max (v : Z) (a : list Z) : is_max (foldl Z.max v a) (v :: a).
Proof.
  split.
  - destruct (foldl_max_elem a v) as [->|H]; [left|by right].
  - constructor; [apply foldl_max_ge|apply foldl_max_bound].
Qed.

Lemma is_max_unique (a : list Z) (t1 t2 : Z) : is_max t1 a -> is_max t2 a -> t1 = t2.
Proof.
  intros [H1 B1] [H2 B2].
  rewrite Forall_forall in B1, B2.
  specialize (B1 _ H2). specialize (B2 _ H1). lia.
Qed.

Lemma existsb_neg_false (x : list Z) :
  Forall (fun v => 0 <= v) x -> existsb (fun v => v <? 0) x = false.
Proof.
  induction 1 as [|v x Hv _ IH]; simpl; [done|].
  rewrite IH. destruct (Z.ltb_spec v 0); [lia|done].
Qed.

(** What [np.bincount] returns on entries that are not negative. *)
Lemma bincount_spec (x : list Z) :
  Forall (fun v => 0 <= v) x ->
  exists h,
    np.bincount x = Ok h
    /\ (x = [] -> h = [])
    /\ (forall top, is_max top x -> np.size h = top + 1)
    /\ (forall j : nat, (j < length h)%nat ->
          h !! j = Some (occurrences (Z.of_nat j) x))
    /\ np.total h = Z.of_nat (length x).
Proof.
  intros Hx. unfold np.bincount. rewrite (existsb_neg_false x Hx).
  destruct x as [|v x'] eqn:Ex.
  - exists []. repeat split; try done.
    + intros top [Htop _]. by apply elem_of_nil in Htop.
    + simpl. lia.
  - rewrite <- Ex in *. set (m := foldl Z.max v x').
    assert (Hm : is_max m x) by (rewrite Ex; apply foldl_max_is_max).
    assert (H0 : 0 <= m).
    { destruct Hm as [Hin _]. rewrite Forall_forall in Hx. by apply Hx. }
    eexists. split; [reflexivity|]. repeat split.
    + rewrite Ex. done.
    + intros top Htop. rewrite (is_max_unique _ _ _ Htop Hm).
      unfold np.size. rewrite tally_length, length_replicate. lia.
    + intros j Hj. rewrite tally_length, length_replicate in Hj.
      rewrite tally_lookup by done.
      rewrite lookup_replicate_2 by done. simpl. done.
    + rewrite tally_total.
      * rewrite total_replicate_0. lia.
      * rewrite length_replicate. destruct Hm as [_ Hb].
        rewrite Forall_forall in Hx, Hb. apply Forall_forall.
        intros w Hw. specialize (Hx _ Hw). specialize (Hb _ Hw). simpl in *. lia.
Qed.

Lemma filter_ext_Forall {A} (Q1 Q2 : A -> Prop)
    `{!forall x, Decision (Q1 x)} `{!forall x, Decision (Q2 x)} (l : list A) :
  Forall (fun x => Q1 x <-> Q2 x) l -> filter Q1 l = filter Q2 l.
Proof.
  induction 1 as [|x l Hx _ IH]; [done|].
  rewrite !filter_cons, IH.
  destruct (decide (Q1 x)), (decide (Q2 x)); tauto.
Qed.

Lemma filter_none {A} (Q : A -> Prop) `{!forall x, Decision (Q x)} (l : list A) :
  Forall (fun x => ~ Q x) l -> filter Q l = [].
Proof.
  induction 1 as [|x l Hx _ IH]; [done|].
  rewrite filter_cons, IH. by destruct (decide (Q x)).
Qed.

Lemma filter_all {A} (Q : A -> Prop) `{!forall x, Decision (Q x)} (l : list A) :
  Forall Q l -> filter Q l = l.
Proof.
  induction 1 as [|x l Hx _ IH]; [done|].
  rewrite filter_cons, IH. by destruct (decide (Q x)).
Qed.

Lemma bins_below (x : list Z) (n : nat) :
  Z.of_nat (length (filter (fun v => 0 <= v < Z.of_nat (S n)) x))
  = Z.of_nat (length (filter (fun v => 0 <= v < Z.of_nat n) x))
    + occurrences (Z.of_nat n) x.
Proof.
  induction x as [|v x IH]; [done|].
  rewrite occurrences_cons, !filter_cons.
  destruct (decide (v = Z.of_nat n)) as [->|Hne].
  - rewrite decide_True by lia. rewrite decide_False by lia.
    simpl length. lia.
  - destruct (decide (0 <= v < Z.of_nat n)).
    + rewrite decide_True by lia. simpl length. lia.
    + rewrite decide_False by lia. lia.
Qed.

Lemma total_occurrences (x : list Z) (n : nat) :
  np.total (map (fun j => occurrences (Z.of_nat j) x) (seq 0 n))
  = Z.of_nat (length (filter (fun v => 0 <= v < Z.of_nat n) x)).
Proof.
  induction n as [|n IH].
  - simpl. rewrite filter_none; [done|].
    apply Forall_forall. intros; lia.
  - rewrite seq_S, map_app, total_app, IH, bins_below. simpl. lia.
Qed.

Lemma bins_as_map (x h : list Z) :
  (forall j : nat, (j < length h)%nat ->
     h !! j = Some (occurrences (Z.of_nat j) x)) ->
  h = map (fun j => occurrences (Z.of_nat j) x) (seq 0 (length h)).
Proof.
  intros Hh. apply list_eq. intros j.
  destruct (decide (j < length h)%nat) as [Hj|Hj].
  - rewrite Hh by done. rewrite list_lookup_fmap, lookup_seq_lt by done. done.
  - rewrite lookup_ge_None_2 by lia.
    rewrite list_lookup_fmap, lookup_seq_ge by lia. done.
Qed.

Lemma slice_to_nonneg {A} (a : list A) (n : Z) :
  0 <= n -> np.slice_to a n = take (Z.to_nat n) a.
Proof.
  intros Hn. unfold np.slice_to.
  destruct (Z.ltb_spec n 0); [lia|done].
Qed.

Lemma int63_nonneg_ge0 (a : list Z) :
  Forall int63_nonneg a -> Forall (fun v => 0 <= v) a.
Proof.
  intros H. eapply Forall_impl; [exact H|].
  unfold int63_nonneg. intros; lia.
Qed.

(** What [compute_hist] returns on a non-empty array, with a cap that is
    not negative and with none: the bins [h] of [np.bincount], cut or whole. *)
Lemma compute_hist_bins (counts : list Z) (top : Z) :
  Forall int63_nonneg counts -> is_max top counts ->
  exists h,
    length h = Z.to_nat (top + 1)
    /\ (forall j : nat, (j < length h)%nat ->
          h !! j = Some (occurrences (Z.of_nat j) counts))
    /\ compute_hist counts None = Ok (seqZ 0 (top + 1), h)
    /\ forall m, 0 <= m ->
          compute_hist counts (Some m)
          = Ok (seqZ 0 (Z.min m top + 1), take (Z.to_nat (Z.min m top + 1)) h).
Proof.
  intros Hc Hmax. unfold compute_hist.
  rewrite (astype_int64_id _ Hc).
  pose proof (int63_nonneg_ge0 _ Hc) as Hge.
  destruct (bincount_spec counts Hge) as (h & -> & _ & Hsize & Hlk & Htot).
  specialize (Hsize _ Hmax). unfold np.size in Hsize.
  assert (Htop : 0 <= top).
  { destruct Hmax as [Hin _]. rewrite Forall_forall in Hge. by apply Hge. }
  exists h. split; [lia|]. split; [done|]. simpl. unfold np.size. rewrite Hsize.
  replace (top + 1 - 1) with top by lia. unfold np.arange0. split.
  - rewrite slice_to_nonneg by lia.
    rewrite take_ge by lia. done.
  - intros m Hm. rewrite slice_to_nonneg by lia. done.
Qed.

Lemma total_take_bins (counts h : list Z) (n : nat) :
  Forall (fun v => 0 <= v) counts ->
  (n <= length h)%nat ->
  (forall j : nat, (j < length h)%nat ->
     h !! j = Some (occurrences (Z.of_nat j) counts)) ->
  np.total (take n h)
  = Z.of_nat (length (filter (fun v => v < Z.of_nat n) counts)).
Proof.
  intros Hge Hn Hlk.
  rewrite (bins_as_map counts (take n h)).
  - rewrite total_occurrences, length_take, Nat.min_l by done.
    f_equal. f_equal. apply filter_ext_Forall.
    eapply Forall_impl; [exact Hge|]. simpl. intros; lia.
  - intros j Hj. rewrite length_take in Hj.
    rewrite lookup_take_lt by lia. apply Hlk. lia.
Qed.

Lemma is_max_nonneg (counts : list Z) (top : Z) :
  Forall int63_nonneg counts -> is_max top counts -> 0 <= top.
Proof.
  intros Hc [Hin _]. rewrite Forall_forall in Hc.
  specialize (Hc _ Hin). unfold int63_nonneg in Hc. lia.
Qed.

Lemma compute_hist_full_bins (counts : list Z) :
  Forall int63_nonneg counts ->
  exists k y,
    compute_hist counts None = Ok (k, y)
    /\ np.total y = Z.of_nat (length counts).
Proof.
  intros Hc. destruct counts as [|v counts'] eqn:E.
  { exists [], []. split; done. }
  rewrite <- E in *.
  assert (Hmax : is_max (foldl Z.max v counts') counts)
    by (rewrite E; apply foldl_max_is_max).
  set (top := foldl Z.max v counts') in *.
  destruct (compute_hist_bins counts top Hc Hmax) as (h & Hlen & Hlk & Hfull & _).
  exists (seqZ 0 (top + 1)), h. split; [done|].
  rewrite <- (firstn_all h).
  rewrite (total_take_bins counts) by (auto using int63_nonneg_ge0).
  f_equal. f_equal. apply filter_all.
  destruct Hmax as [_ Hb]. eapply Forall_impl; [exact Hb|]. simpl. intros; lia.
Qed.

(** C1: for a counts array of length N with entries that are not negative
    (and below 2^63, as every signed NumPy integer is), [compute_hist]
    without a cap returns the whole table: its k values are 0, 1, ... in
    step with the frequencies, the frequency at k is the number of entries
    equal to k, and the frequencies sum to exactly N. *)
Theorem compute_hist_full_sums_to_length (counts : list Z) :
  Forall int63_nonneg counts ->
  exists k y,
    compute_hist counts None = Ok (k, y)
    /\ np.total y = Z.of_nat (length counts)
    /\ k = seqZ 0 (Z.of_nat (length y))
    /\ (forall (j : nat) (f : Z),
          y !! j = Some f -> f = occurrences (Z.of_nat j) counts).
Proof.
  intros Hc. destruct counts as [|v counts'] eqn:E.
  { exists [], []. repeat split; done. }
  rewrite <- E in *.
  assert (Hmax : is_max (foldl Z.max v counts') counts)
    by (rewrite E; apply foldl_max_is_max).
  set (top := foldl Z.max v counts') in *.
  pose proof (is_max_nonneg _ _ Hc Hmax) as Htop.
  destruct (compute_hist_bins counts top Hc Hmax) as (h & Hlen & Hlk & Hfull & _).
  exists (seqZ 0 (top + 1)), h. split; [done|]. split; [|split].
  - rewrite <- (firstn_all h).
    rewrite (total_take_bins counts) by (auto using int63_nonneg_ge0).
    f_equal. f_equal. apply filter_all.
    destruct Hmax as [_ Hb]. eapply Forall_impl; [exact Hb|]. simpl. intros; lia.
  - f_equal. lia.
  - intros j f Hj. pose proof (lookup_lt_Some _ _ _ Hj) as Hlt.
    rewrite Hlk in Hj by done. congruence.
Qed.

Lemma compute_hist_full_witness :
  exists k y,
    compute_hist [0; 2; 2; 1] None = Ok (k, y)
    /\ np.total y = Z.of_nat (length [0; 2; 2; 1])
    /\ k = seqZ 0 (Z.of_nat (length y))
    /\ (forall (j : nat) (f : Z),
          y !! j = Some f -> f = occurrences (Z.of_nat j) [0; 2; 2; 1]).
Proof.
  apply (compute_hist_full_sums_to_length [0; 2; 2; 1]).
  repeat constructor; unfold int63_nonneg; lia.
Defined.

Lemma filter_length_lt {A} (Q : A -> Prop) `{!forall x, Decision (Q x)}
    (l : list A) (x : A) :
  x ∈ l -> ~ Q x -> (length (filter Q l) < length l)%nat.
Proof.
  intros Hin Hx. induction Hin as [x l|x y l Hin IH].
  - rewrite filter_cons, decide_False by done.
    pose proof (length_filter Q l). simpl. lia.
  - rewrite filter_cons. specialize (IH Hx).
    destruct (decide (Q y)); simpl; lia.
Qed.

Lemma last_seqZ (n : Z) : 0 <= n -> last (seqZ 0 (n + 1)) = Some n.
Proof.
  intros Hn. rewrite last_lookup, length_seqZ.
  rewrite lookup_seqZ_lt by lia. f_equal. lia.
Qed.

(** C3: for a non-empty counts array with entries that are not negative
    (and below 2^63), its largest entry [top] and a cap [m >= 0], the
    returned k values are 0 .. min(m, top) and
    the frequencies are the first entries of the whole table, each still the
    number of entries equal to its k; the sum counts only entries up to [m].
    When [m] is below the largest entry there are exactly [m + 1] k values,
    the last is [m], and the entries above [m] are missing from the sum:
    nothing is added to the last bucket. *)
Theorem compute_hist_truncates (counts : list Z) (m top : Z) :
  Forall int63_nonneg counts -> is_max top counts -> 0 <= m ->
  exists k y full,
    compute_hist counts (Some m) = Ok (k, y)
    /\ compute_hist counts None = Ok (seqZ 0 (top + 1), full)
    /\ k = seqZ 0 (Z.min m top + 1)
    /\ y = take (length k) full
    /\ (forall j : nat, Z.of_nat j <= Z.min m top ->
          y !! j = Some (occurrences (Z.of_nat j) counts))
    /\ np.total y = Z.of_nat (length (filter (fun v => v <= m) counts))
    /\ (m < top ->
          Z.of_nat (length k) = m + 1 /\ length y = length k
          /\ last k = Some m
          /\ np.total y < Z.of_nat (length counts)).
Proof.
  intros Hc Hmax Hm.
  pose proof (is_max_nonneg _ _ Hc Hmax) as Htop.
  pose proof (int63_nonneg_ge0 _ Hc) as Hge.
  destruct (compute_hist_bins counts top Hc Hmax) as (h & Hlen & Hlk & Hfull & Hcap).
  exists (seqZ 0 (Z.min m top + 1)), (take (Z.to_nat (Z.min m top + 1)) h), h.
  assert (Htot : np.total (take (Z.to_nat (Z.min m top + 1)) h)
                 = Z.of_nat (length (filter (fun v => v <= m) counts))).
  { rewrite (total_take_bins counts) by (done || lia).
    f_equal. f_equal. apply filter_ext_Forall.
    destruct Hmax as [_ Hb]. eapply Forall_impl; [exact Hb|]. simpl. intros; lia. }
  split; [by apply Hcap|]. split; [done|]. split; [done|]. split; [|split; [|split]].
  - rewrite length_seqZ. done.
  - intros j Hj. rewrite lookup_take_lt by lia. apply Hlk. lia.
  - done.
  - intros Hlt. rewrite Htot, length_seqZ, length_take.
    replace (Z.min m top) with m by lia.
    split; [lia|]. split; [lia|]. split; [by apply last_seqZ|].
    apply inj_lt.
    apply (filter_length_lt _ counts top); [apply Hmax|lia].
Qed.

Lemma compute_hist_truncates_witness :
  exists k y full,
    compute_hist [0; 3; 1; 3; 7] (Some 3) = Ok (k, y)
    /\ compute_hist [0; 3; 1; 3; 7] None = Ok (seqZ 0 (7 + 1), full)
    /\ k = seqZ 0 (Z.min 3 7 + 1)
    /\ y = take (length k) full
    /\ (forall j : nat, Z.of_nat j <= Z.min 3 7 ->
          y !! j = Some (occurrences (Z.of_nat j) [0; 3; 1; 3; 7]))
    /\ np.total y
       = Z.of_nat (length (filter (fun v => v <= 3) [0; 3; 1; 3; 7]))
    /\ (3 < 7 ->
          Z.of_nat (length k) = 3 + 1 /\ length y = length k
          /\ last k = Some 3
          /\ np.total y < Z.of_nat (length [0; 3; 1; 3; 7])).
Proof.
  apply (compute_hist_truncates [0; 3; 1; 3; 7] 3 7).
  - repeat constructor; unfold int63_nonneg; lia.
  - split; [apply list_elem_of_In; simpl; tauto|]. repeat constructor; lia.
  - lia.
Defined.

(** ** Uniform occupancy *)

Lemma occurrences_replicate (n : nat) (c k : Z) :
  occurrences k (replicate n c) = if decide (c = k) then Z.of_nat n else 0.
Proof.
  induction n as [|n IH]; [by destruct (decide (c = k))|].
  simpl replicate. rewrite occurrences_cons, IH.
  destruct (decide (c = k)); lia.
Qed.

(** X1: when each of the N > 0 buckets holds exactly c items, the table has
    the rows k = 0 .. c, with frequency N at k = c and 0 at every k below. *)
Theorem compute_hist_uniform (n : nat) (c : Z) :
  (0 < n)%nat -> 0 <= c < 2 ^ 63 ->
  compute_hist (replicate n c) None
  = Ok (seqZ 0 (c + 1), replicate (Z.to_nat c) 0 ++ [Z.of_nat n]).
Proof.
  intros Hn Hc.
  assert (Hall : Forall int63_nonneg (replicate n c)).
  { apply Forall_forall. intros v Hv. by apply elem_of_replicate in Hv as [-> _]. }
  assert (Hmax : is_max c (replicate n c)).
  { split.
    - apply elem_of_replicate. split; [done|lia].
    - apply Forall_forall. intros v Hv.
      apply elem_of_replicate in Hv as [-> _]. lia. }
  destruct (compute_hist_bins _ c Hall Hmax) as (h & Hlen & Hlk & -> & _).
  do 2 f_equal. apply list_eq. intros j.
  destruct (decide (j < length h)%nat) as [Hj|Hj].
  - rewrite Hlk, occurrences_replicate by done.
    destruct (decide (c = Z.of_nat j)) as [->|Hne].
    + rewrite lookup_app_r by (rewrite length_replicate; lia).
      rewrite length_replicate, Nat2Z.id, Nat.sub_diag. done.
    + rewrite lookup_app_l by (rewrite length_replicate; lia).
      rewrite lookup_replicate_2 by lia. done.
  - rewrite lookup_ge_None_2 by lia.
    rewrite lookup_ge_None_2; [done|].
    rewrite length_app, length_replicate. simpl. lia.
Qed.

Lemma compute_hist_uniform_witness :
  compute_hist (replicate 10 1) None
  = Ok (seqZ 0 (1 + 1), replicate (Z.to_nat 1) 0 ++ [Z.of_nat 10]).
Proof. apply (compute_hist_uniform 10 1); lia. Defined.

Example compute_hist_ex2 :
  compute_hist [0; 3; 1; 3; 7] (Some 3) = Ok ([0; 1; 2; 3], [1; 1; 0; 2]).
Proof. reflexivity. Qed.

Example compute_hist_ex3 : compute_hist [] None = Ok ([], []).
Proof. reflexivity. Qed.

Example compute_hist_negative_entry :
  compute_hist [2; -1] None
  = Raise (ValueError (lit "'list' argument must have no negative elements")).
Proof. reflexivity. Qed.

(** ** Worked runs *)

(** One descriptor that declares ten buckets and ten inputs over a
    little-endian file of ten ones: the table is [(0, 0); (1, 10)], exactly
    one image, hist_A.png, is written under plots, and the run ends with the
    confirmation. *)
Example run_one_algorithm :
  run_script (Host.platform_of LittleEndian Host.one_algorithm)
    (Host.cli "run" None false)
  = (Ok (),
     {| made_dirs := [lit "run/plots"];
        saved :=
          [(lit "run/plots/hist_A.png",
            PerAlgorithm (lit "A") [0; 1] [0; 10]
              (Some {| pc_max_k := 1; pc_num_inputs := 10;
                       pc_num_buckets := 10 |})
              false)];
        printed := [lit "Done. Plots written to: run/plots"] |}).
Proof. vm_compute. reflexivity. Qed.

(** ** File names *)

Section FileNames.

Context (P : platform).

Lemma sanitize_filename_map (s : str) :
  sanitize_filename P s = map (clean_char P) s.
Proof.
  induction s as [|c s IH]; [done|].
  unfold sanitize_filename in *. cbn [map concat]. rewrite IH.
  unfold clean_char.
  by destruct (str_isalnum P c || char_in c (lit "._-")).
Qed.

Lemma char_in_punctuation (c : char) :
  char_in c (lit "._-") = true <-> c = chr "." \/ c = chr "_" \/ c = chr "-".
Proof.
  unfold char_in. simpl. rewrite !orb_true_iff, !N.eqb_eq.
  unfold chr. simpl. intuition discriminate.
Qed.

Lemma kept_iff (c : char) :
  kept P c <-> str_isalnum P c || char_in c (lit "._-") = true.
Proof.
  unfold kept. rewrite orb_true_iff, char_in_punctuation. tauto.
Qed.

Lemma clean_char_kept (c : char) : kept P (clean_char P c).
Proof.
  unfold clean_char.
  destruct (str_isalnum P c || char_in c (lit "._-")) eqn:E.
  - by apply kept_iff.
  - right. right. by left.
Qed.

Lemma clean_char_fixed (c : char) : kept P c -> clean_char P c = c.
Proof.
  intros H. apply kept_iff in H. unfold clean_char. by rewrite H.
Qed.

Lemma clean_char_replaced (c : char) : ~ kept P c -> clean_char P c = chr "_".
Proof.
  intros H. unfold clean_char.
  destruct (str_isalnum P c || char_in c (lit "._-")) eqn:E; [|done].
  exfalso. apply H. by apply kept_iff.
Qed.

(** C8: the image of one algorithm is saved as hist_<clean>.png in the
    output directory, where <clean> has the length of the identifier and,
    position by position, the identifier's character when that is
    alphanumeric or one of . _ - and an underscore otherwise. *)
Theorem per_algorithm_image_is_sanitized (alg : str) :
  exists clean,
    per_algorithm_image P alg = lit "hist_" ++ clean ++ lit ".png"
    /\ clean = sanitize_filename P alg
    /\ length clean = length alg
    /\ (forall (i : nat) (c : char), alg !! i = Some c ->
          (kept P c -> clean !! i = Some c)
          /\ (~ kept P c -> clean !! i = Some (chr "_")))
    /\ (forall meta k y out_dir show_poisson logy s s',
          algorithm meta = alg ->
          run (plot_per_algorithm P meta k y out_dir show_poisson logy) s
          = (Ok (), s') ->
          exists fig,
            saved s'
            = saved s ++ [(path_join P out_dir (per_algorithm_image P alg), fig)]).
Proof.
  exists (sanitize_filename P alg). split; [done|]. split; [done|].
  rewrite sanitize_filename_map. split; [by rewrite length_map|]. split.
  - intros i c Hi. rewrite list_lookup_fmap, Hi. simpl. split; intros Hc.
    + by rewrite clean_char_fixed.
    + by rewrite clean_char_replaced.
  - intros meta k y out_dir show_poisson logy0 s s' Halg.
    unfold plot_per_algorithm. rewrite Halg.
    unfold mbind, io_bind, lift, save. simpl. intros Hrun.
    destruct (decide (numBuckets meta = 0)); [discriminate|].
    destruct show_poisson; simpl in Hrun.
    + destruct (np.amax k) as [k_max|e]; simpl in Hrun; [|discriminate].
      match type of Hrun with context [savefig P ?p ?f] =>
        destruct (savefig P p f); [|discriminate]; exists f end.
      by injection Hrun as <-.
    + match type of Hrun with context [savefig P ?p ?f] =>
        destruct (savefig P p f); [|discriminate]; exists f end.
      by injection Hrun as <-.
Qed.

(** C10: [sanitize_filename] is idempotent; every character of its output
    is alphanumeric or one of . _ - and so survives a second pass. *)
Theorem sanitize_filename_idempotent (s : str) :
  sanitize_filename P (sanitize_filename P s) = sanitize_filename P s
  /\ Forall (kept P) (sanitize_filename P s).
Proof.
  rewrite !sanitize_filename_map. split.
  - rewrite map_map. apply map_ext. intros c.
    apply clean_char_fixed, clean_char_kept.
  - apply Forall_forall. intros c Hc.
    apply list_elem_of_fmap in Hc as (c0 & -> & _). apply clean_char_kept.
Qed.

End FileNames.

Example sanitize_filename_ex :
  sanitize_filename (Host.platform_of LittleEndian Host.one_algorithm)
    (lit "xx Hash/3:64-bit_v1.2")
  = lit "xx_Hash_3_64-bit_v1.2".
Proof. reflexivity. Qed.

(** ** MetaLoader *)

(** The number of items read: as many whole groups of four bytes as the
    file holds. *)
Lemma items_i4_length (o : byteorder) (raw : list byte) :
  (4 * length (items_i4 o raw) <= length raw < 4 * length (items_i4 o raw) + 4)%nat.
Proof.
  assert (H : forall n raw, (length raw <= n)%nat ->
    (4 * length (items_i4 o raw) <= length raw
     < 4 * length (items_i4 o raw) + 4)%nat).
  { clear raw. induction n as [|n IH]; intros raw Hn.
    - destruct raw; simpl in *; lia.
    - destruct raw as [|b0 [|b1 [|b2 [|b3 rest]]]]; simpl in *; try lia.
      specialize (IH rest). lia. }
  by apply (H (length raw)).
Qed.

Example items_i4_orders :
  items_i4 LittleEndian [x01; x00; x00; x00; xff; xff; xff; xff; x07]
  = [1; -1]
  /\ items_i4 BigEndian [x01; x00; x00; x00; xff; xff; xff; xff; x07]
     = [16777216; -1].
Proof. split; reflexivity. Qed.

(** ** Byte order of an item *)

Lemma byte_val_range (b : byte) : 0 <= byte_val b < 256.
Proof. unfold byte_val. pose proof (Byte.to_N_bounded b). lia. Qed.

Lemma byte_val_inj (b c : byte) : byte_val b = byte_val c -> b = c.
Proof.
  unfold byte_val. intros H. apply N2Z.inj in H.
  pose proof (Byte.of_to_N b) as Hb. rewrite H, Byte.of_to_N in Hb. congruence.
Qed.

Lemma lor_shiftl_add (a b n : Z) :
  0 <= n -> 0 <= a < 2 ^ n -> Z.lor a (Z.shiftl b n) = a + b * 2 ^ n.
Proof.
  intros Hn Ha. rewrite <- Z.shiftl_mul_pow2 by done.
  rewrite <- Z.add_lor_land.
  assert (Hland : Z.land a (Z.shiftl b n) = 0); [|lia].
  apply Z.bits_inj'. intros m Hm. rewrite Z.land_spec, Z.bits_0.
  destruct (Z.lt_ge_cases m n) as [Hlt|Hge].
  - rewrite Z.shiftl_spec_low by done. apply andb_false_r.
  - destruct (Z.eq_dec a 0) as [->|Hnz]; [by rewrite Z.bits_0|].
    rewrite Z.bits_above_log2; [done|lia|].
    apply Z.lt_le_trans with n; [|done]. apply Z.log2_lt_pow2; lia.
Qed.

(** The unsigned value of the four bytes, least significant byte [c0]. *)
Lemma lor_bytes_sum (c0 c1 c2 c3 : byte) :
  Z.lor (byte_val c0)
    (Z.lor (Z.shiftl (byte_val c1) 8)
       (Z.lor (Z.shiftl (byte_val c2) 16) (Z.shiftl (byte_val c3) 24)))
  = byte_val c0 + 2 ^ 8 * byte_val c1 + 2 ^ 16 * byte_val c2
    + 2 ^ 24 * byte_val c3.
Proof.
  pose proof (byte_val_range c0). pose proof (byte_val_range c1).
  pose proof (byte_val_range c2). pose proof (byte_val_range c3).
  rewrite (Z.shiftl_mul_pow2 (byte_val c1) 8) by lia.
  rewrite (Z.shiftl_mul_pow2 (byte_val c2) 16) by lia.
  replace (byte_val c2 * 2 ^ 16) with (Z.shiftl (byte_val c2 * 2 ^ 8) 8)
    by (rewrite Z.shiftl_mul_pow2; lia).
  replace (Z.shiftl (byte_val c3) 24)
    with (Z.shiftl (Z.shiftl (byte_val c3) 16) 8)
    by (rewrite Z.shiftl_shiftl by lia; done).
  rewrite <- !Z.shiftl_lor.
  replace (byte_val c1 * 2 ^ 8) with (Z.shiftl (byte_val c1) 8)
    by (rewrite Z.shiftl_mul_pow2; lia).
  rewrite <- Z.shiftl_lor.
  replace (Z.shiftl (byte_val c3) 16)
    with (Z.shiftl (Z.shiftl (byte_val c3) 8) 8)
    by (rewrite Z.shiftl_shiftl by lia; done).
  replace (byte_val c2 * 2 ^ 8) with (Z.shiftl (byte_val c2) 8)
    by (rewrite Z.shiftl_mul_pow2; lia).
  rewrite <- Z.shiftl_lor.
  rewrite (lor_shiftl_add (byte_val c2)) by lia.
  rewrite (lor_shiftl_add (byte_val c1)) by lia.
  rewrite (lor_shiftl_add (byte_val c0)) by lia.
  lia.
Qed.

Lemma wrap_signed_32_unsigned (u : Z) :
  0 <= u < 2 ^ 32 ->
  np.wrap_signed 32 u = if u <? 2 ^ 31 then u else u - 2 ^ 32.
Proof.
  intros Hu. unfold np.wrap_signed. destruct (Z.ltb_spec u (2 ^ 31)).
  - rewrite Z.mod_small; lia.
  - replace (u + 2 ^ (32 - 1)) with (u - 2 ^ 31 + 1 * 2 ^ 32) by lia.
    rewrite Z.mod_add by lia. rewrite Z.mod_small; lia.
Qed.

(** X2: the four bytes of an item read the same in both byte orders exactly
    when they are a palindrome. *)
Theorem byte_order_matters (b0 b1 b2 b3 : byte) :
  decode_i4 LittleEndian b0 b1 b2 b3 = decode_i4 BigEndian b0 b1 b2 b3
  <-> b0 = b3 /\ b1 = b2.
Proof.
  split.
  - unfold decode_i4. rewrite !lor_bytes_sum.
    pose proof (byte_val_range b0). pose proof (byte_val_range b1).
    pose proof (byte_val_range b2). pose proof (byte_val_range b3).
    rewrite !wrap_signed_32_unsigned by lia. intros Heq.
    assert (byte_val b0 = byte_val b3 /\ byte_val b1 = byte_val b2) as [H03 H12].
    { repeat match type of Heq with
             | context [if ?c then _ else _] => destruct c
             end; lia. }
    split; by apply byte_val_inj.
  - by intros [-> ->].
Qed.

Section Loader.

Context (P : platform).

Lemma load_algorithm_unfold (meta_path : str) (meta : AlgorithmMeta)
    (raw : list byte) :
  json_load P meta_path = Ok meta ->
  read_bytes P (path_join P (path_parent P meta_path) (countsFile meta))
  = Ok raw ->
  load_algorithm P meta_path
  = let counts := items_i4 (declared_order P meta) raw in
    if decide (np.size counts ≠ numBuckets meta) then
      Raise (ValueError (size_mismatch (np.size counts) meta meta_path))
    else Ok (meta, counts).
Proof.
  intros Hmeta Hraw. unfold load_algorithm, np_fromfile.
  rewrite Hmeta. simpl. rewrite Hraw. done.
Qed.

(** C4: with the descriptor and the counts file read, [load_algorithm]
    compares the number of int32 items in the file with the declared
    [numBuckets]. When they differ it raises [ValueError] with the message
    "Counts size <items> != numBuckets <declared> for <descriptor path>"
    and returns nothing; when they are equal it returns the descriptor and
    the counts. *)
Theorem load_algorithm_checks_size (meta_path : str) (meta : AlgorithmMeta)
    (raw : list byte) :
  json_load P meta_path = Ok meta ->
  read_bytes P (path_join P (path_parent P meta_path) (countsFile meta))
  = Ok raw ->
  exists counts,
    counts = items_i4 (declared_order P meta) raw
    /\ (4 * length counts <= length raw < 4 * length counts + 4)%nat
    /\ (np.size counts ≠ numBuckets meta ->
          load_algorithm P meta_path
          = Raise (ValueError
              (lit "Counts size " ++ str_of_int (np.size counts)
                 ++ lit " != numBuckets " ++ str_of_int (numBuckets meta)
                 ++ lit " for " ++ meta_path)))
    /\ (np.size counts = numBuckets meta ->
          load_algorithm P meta_path = Ok (meta, counts)).
Proof.
  intros Hmeta Hraw. eexists. split; [reflexivity|].
  split; [apply items_i4_length|].
  rewrite (load_algorithm_unfold _ _ _ Hmeta Hraw). cbv zeta.
  split; intros H.
  - by rewrite decide_True.
  - by rewrite decide_False by (intros H'; by apply H').
Qed.

(** C5, amended: the counts are read in the byte order the [endianness]
    text selects. A text whose lowercase form starts with "little" gives
    little-endian int32, one that starts with "big" gives big-endian, and
    an absent field is treated as the text "little"; any other text leaves
    [np.int32], which reads in the byte order of the host. *)
Theorem load_algorithm_byte_order (meta_path : str) (meta : AlgorithmMeta)
    (raw : list byte) :
  json_load P meta_path = Ok meta ->
  read_bytes P (path_join P (path_parent P meta_path) (countsFile meta))
  = Ok raw ->
  let declared := str_lower P (default (lit "little") (endianness meta)) in
  (forall r, load_algorithm P meta_path = Ok r ->
     r = (meta, items_i4 (declared_order P meta) raw))
  /\ (startswith declared (lit "little") = true ->
        declared_order P meta = LittleEndian)
  /\ (startswith declared (lit "little") = false ->
      startswith declared (lit "big") = true ->
        declared_order P meta = BigEndian)
  /\ (startswith declared (lit "little") = false ->
      startswith declared (lit "big") = false ->
        declared_order P meta = sys_byteorder P)
  /\ (endianness meta = None ->
      str_lower P (lit "little") = lit "little" ->
        declared_order P meta = LittleEndian).
Proof.
  intros Hmeta Hraw declared. split; [|split; [|split; [|split]]].
  - intros r. rewrite (load_algorithm_unfold _ _ _ Hmeta Hraw). cbv zeta.
    destruct (decide _); [discriminate|]. by intros [= <-].
  - intros H1. unfold declared_order, counts_dtype. fold declared. by rewrite H1.
  - intros H1 H2. unfold declared_order, counts_dtype. fold declared.
    by rewrite H1, H2.
  - intros H1 H2. unfold declared_order, counts_dtype. fold declared.
    by rewrite H1, H2.
  - intros Hnone Hlow. unfold declared_order, counts_dtype.
    rewrite Hnone. simpl. rewrite Hlow. done.
Qed.

End Loader.

Example load_short_file :
  load_algorithm (Host.platform_of LittleEndian Host.short_file)
    (lit "run/A.meta.json")
  = Raise (ValueError
      (lit "Counts size 4 != numBuckets 5 for run/A.meta.json")).
Proof. vm_compute. reflexivity. Qed.

Lemma load_algorithm_checks_size_witness :
  exists counts,
    counts = items_i4
               (declared_order (Host.platform_of LittleEndian Host.short_file)
                  (Host.meta_of "A" 5 4 (Some "little"%string)))
               (Host.le_file [1; 0; 2; 1])
    /\ (4 * length counts <= length (Host.le_file [1; 0; 2; 1]%Z)
        < 4 * length counts + 4)%nat
    /\ (np.size counts ≠ 5 ->
          load_algorithm (Host.platform_of LittleEndian Host.short_file)
            (lit "run/A.meta.json")
          = Raise (ValueError
              (lit "Counts size " ++ str_of_int (np.size counts)
                 ++ lit " != numBuckets " ++ str_of_int 5
                 ++ lit " for " ++ lit "run/A.meta.json")))
    /\ (np.size counts = 5 ->
          load_algorithm (Host.platform_of LittleEndian Host.short_file)
            (lit "run/A.meta.json")
          = Ok (Host.meta_of "A" 5 4 (Some "little"%string), counts)).
Proof.
  apply (load_algorithm_checks_size
           (Host.platform_of LittleEndian Host.short_file)
           (lit "run/A.meta.json")
           (Host.meta_of "A" 5 4 (Some "little"%string))
           (Host.le_file [1; 0; 2; 1])); reflexivity.
Defined.

(** On a big-endian host an [endianness] text that is neither order is
    read big-endian: the four bytes 01 00 00 00 give 16777216, not 1. *)
Lemma odd_endianness_reads_host_order :
  let P := Host.platform_of BigEndian Host.odd_endianness in
  let raw := [x01; x00; x00; x00] in
  json_load P (lit "run/A.meta.json")
  = Ok (Host.meta_of "A" 1 1 (Some "middle"%string))
  /\ read_bytes P (lit "run/A_counts_i32_le.bin") = Ok raw
  /\ startswith (str_lower P (lit "middle")) (lit "little") = false
  /\ startswith (str_lower P (lit "middle")) (lit "big") = false
  /\ items_i4 LittleEndian raw = [1]
  /\ load_algorithm P (lit "run/A.meta.json")
     = Ok (Host.meta_of "A" 1 1 (Some "middle"%string), [16777216]).
Proof. vm_compute. repeat split; reflexivity. Qed.

Lemma load_algorithm_byte_order_witness :
  let P := Host.platform_of BigEndian Host.odd_endianness in
  let meta := Host.meta_of "A" 1 1 (Some "middle"%string) in
  let raw := [x01; x00; x00; x00] in
  let declared := str_lower P (default (lit "little") (endianness meta)) in
  (forall r, load_algorithm P (lit "run/A.meta.json") = Ok r ->
     r = (meta, items_i4 (declared_order P meta) raw))
  /\ (startswith declared (lit "little") = true ->
        declared_order P meta = LittleEndian)
  /\ (startswith declared (lit "little") = false ->
      startswith declared (lit "big") = true ->
        declared_order P meta = BigEndian)
  /\ (startswith declared (lit "little") = false ->
      startswith declared (lit "big") = false ->
        declared_order P meta = sys_byteorder P)
  /\ (endianness meta = None ->
      str_lower P (lit "little") = lit "little" ->
        declared_order P meta = LittleEndian).
Proof.
  apply (load_algorithm_byte_order
           (Host.platform_of BigEndian Host.odd_endianness)
           (lit "run/A.meta.json")
           (Host.meta_of "A" 1 1 (Some "middle"%string))
           [x01; x00; x00; x00]); reflexivity.
Defined.

(** ** Overlay alignment *)

Lemma mapM_Ok {A B} (f : A -> result B) (g : A -> B) (l : list A) :
  Forall (fun a => f a = Ok (g a)) l -> mapM f l = Ok (map g l).
Proof.
  induction 1 as [|a l Ha _ IH]; [done|].
  simpl. rewrite Ha. simpl. rewrite IH. done.
Qed.

Lemma take_seqZ_0 (a b : Z) :
  0 <= a <= b -> take (Z.to_nat a) (seqZ 0 b) = seqZ 0 a.
Proof.
  intros Hab. apply list_eq. intros i. rewrite lookup_take.
  destruct (decide (i < Z.to_nat a)%nat) as [Hi|Hi].
  - rewrite !lookup_seqZ_lt by lia. done.
  - rewrite lookup_seqZ_ge by lia. done.
Qed.

Lemma foldl_min_le (a : list Z) (v : Z) : foldl Z.min v a <= v.
Proof.
  revert v. induction a as [|w a IH]; intros v; simpl; [lia|].
  specialize (IH (Z.min v w)). lia.
Qed.

Lemma foldl_min_bound (a : list Z) (v : Z) :
  Forall (fun w => foldl Z.min v a <= w) a.
Proof.
  revert v. induction a as [|w a IH]; intros v; simpl; constructor.
  - pose proof (foldl_min_le a (Z.min v w)). lia.
  - apply IH.
Qed.

Lemma foldl_min_elem (a : list Z) (v : Z) :
  foldl Z.min v a ∈ v :: a.
Proof.
  revert v. induction a as [|w a IH]; intros v; simpl; [left|].
  specialize (IH (Z.min v w)).
  apply elem_of_cons in IH as [IH|IH].
  - rewrite IH. destruct (Z.min_spec v w) as [[_ ->]|[_ ->]].
    + left.
    + right. left.
  - right. by right.
Qed.

Lemma hist_table_inv (t : table) :
  hist_table t ->
  0 <= top_k t /\ last t.1.2 = Some (top_k t)
  /\ t.1.2 = seqZ 0 (top_k t + 1)
  /\ length t.2 = Z.to_nat (top_k t + 1).
Proof.
  intros (m & Hm & Hk & Hy). unfold top_k.
  rewrite Hy, Hk, last_seqZ, length_seqZ by done. simpl. done.
Qed.

Lemma align_one_cut (n : Z) (t : table) :
  hist_table t -> 0 <= n <= top_k t ->
  align_one n t = Ok (cut_to n t)
  /\ (top_k t = n -> cut_to n t = t).
Proof.
  intros Ht Hn.
  destruct (hist_table_inv t Ht) as (Htop & Hlast & Hk & Hy).
  destruct t as [[meta k] y]. simpl in *.
  assert (Hsame : top_k (meta, k, y) = n -> cut_to n (meta, k, y) = (meta, k, y)).
  { intros <-. unfold cut_to. simpl. rewrite <- Hk, <- Hy, firstn_all. done. }
  split; [|done].
  unfold align_one, last_k. rewrite Hlast. simpl.
  destruct (decide (top_k (meta, k, y) > n)) as [Hgt|Hle].
  - rewrite !slice_to_nonneg by lia. unfold cut_to. simpl.
    rewrite Hk at 1. rewrite take_seqZ_0 by lia. done.
  - rewrite Hsame by lia. done.
Qed.

(** The alignment of well-shaped tables succeeds and cuts every table to
    the least last k. *)
Lemma align_Ok (data : list table) :
  data ≠ [] -> Forall hist_table data ->
  exists n,
    0 <= n
    /\ n ∈ map top_k data
    /\ Forall (fun t => n <= top_k t) data
    /\ align data = Ok (map (cut_to n) data).
Proof.
  intros Hne Hall.
  destruct data as [|t0 rest] eqn:E; [done|]. rewrite <- E in *.
  set (n := foldl Z.min (top_k t0) (map top_k rest)).
  assert (Hin : n ∈ map top_k data) by (rewrite E; apply foldl_min_elem).
  assert (Hlow : Forall (fun t => n <= top_k t) data).
  { rewrite E. constructor; [apply foldl_min_le|].
    pose proof (foldl_min_bound (map top_k rest) (top_k t0)) as Hb.
    change (map top_k rest) with (top_k <$> rest) in Hb.
    rewrite Forall_fmap in Hb. exact Hb. }
  assert (Hn0 : 0 <= n).
  { pose proof Hin as Hin'.
    apply list_elem_of_fmap in Hin' as (tn & Hn & Htn).
    rewrite Forall_forall in Hall.
    destruct (hist_table_inv tn (Hall _ Htn)) as (H0 & _). lia. }
  assert (Hlasts : mapM (fun t : table => last_k (t.1.2)) data
                   = Ok (map top_k data)).
  { apply mapM_Ok. eapply Forall_impl; [exact Hall|]. intros t Ht.
    destruct (hist_table_inv t Ht) as (_ & Hl & _).
    unfold last_k. by rewrite Hl. }
  assert (Hali : mapM (align_one n) data = Ok (map (cut_to n) data)).
  { apply mapM_Ok. rewrite Forall_forall in Hall, Hlow. apply Forall_forall.
    intros t Ht. apply align_one_cut; [by apply Hall|].
    specialize (Hlow _ Ht). simpl in Hlow. lia. }
  exists n. split; [done|]. split; [done|]. split; [done|].
  unfold align. rewrite Hlasts. simpl. rewrite E at 1. simpl.
  fold n. exact Hali.
Qed.

Example align_ex :
  align [(Host.meta_of "B" 4 5 None, [0; 1; 2], [1; 1; 2]);
         (Host.meta_of "A" 2 1 None, [0; 1], [1; 1])]
  = Ok [(Host.meta_of "B" 4 5 None, [0; 1], [1; 1]);
        (Host.meta_of "A" 2 1 None, [0; 1], [1; 1])].
Proof. reflexivity. Qed.

(** A table of [compute_hist] with at least one row is of the shape the
    alignment is stated for, whatever the counts and the cap. *)
Lemma compute_hist_table (meta : AlgorithmMeta) (counts k y : list Z)
    (cap : option Z) :
  compute_hist counts cap = Ok (k, y) -> k ≠ [] -> hist_table (meta, k, y).
Proof.
  unfold compute_hist. destruct (np.bincount _) as [h|e]; [|discriminate].
  simpl. set (m := match cap with
                   | Some m => Z.min m (np.size h - 1)
                   | None => np.size h - 1
                   end).
  assert (Hm : m <= np.size h - 1) by (unfold m; destruct cap; lia).
  intros [= <- <-] Hk. unfold np.arange0 in *.
  assert (H0 : 0 <= m).
  { destruct (decide (0 <= m)) as [|Hneg]; [done|].
    exfalso. apply Hk. apply length_zero_iff_nil. rewrite length_seqZ. lia. }
  exists m. split; [done|]. split; [done|]. simpl.
  rewrite slice_to_nonneg by lia.
  rewrite length_take, length_seqZ. unfold np.size in Hm. lia.
Qed.

(** ** Overlay normalisation *)

Lemma overlay_line_fractions (t : table) (i : nat) (v : Z) :
  t.2 !! i = Some v ->
  exists fractions,
    overlay_line true t = (algorithm t.1.1, t.1.2, Fractions fractions)
    /\ fractions !! i = Some (np.true_divide v (np.sum_int64 t.2)).
Proof.
  destruct t as [[meta k] y]. simpl. intros Hv.
  eexists. split; [reflexivity|].
  change (map ?f y) with (f <$> y). rewrite list_lookup_fmap, Hv. done.
Qed.

(** C7: every value of a normalised overlay line is the frequency divided
    by the sum of the frequencies of the table that is drawn. In the run
    on two algorithms below, B holds [0; 1; 2; 2] in its 4 buckets, its
    table is cut to k = 0 .. 1 by the alignment, and the line of B shows
    0.5 at k = 0, where 1 bucket of 4 (0.25) holds no item. *)
Theorem overlay_share_of_cut_table :
  (forall (t : table) (i : nat) (v : Z), t.2 !! i = Some v ->
     exists fractions,
       overlay_line true t = (algorithm t.1.1, t.1.2, Fractions fractions)
       /\ fractions !! i = Some (np.true_divide v (np.sum_int64 t.2)))
  /\ let P := Host.platform_of LittleEndian Host.two_algorithms in
     let A := Host.meta_of "A" 2 1 (Some "little"%string) in
     let B := Host.meta_of "B" 4 5 (Some "little"%string) in
     load_algorithm P (lit "run/B.meta.json") = Ok (B, [0; 1; 2; 2])
     /\ compute_hist [0; 1; 2; 2] None = Ok ([0; 1; 2], [1; 1; 2])
     /\ run_script P (Host.cli "run" None true)
        = (Ok (),
           {| made_dirs := [lit "run/plots"];
              saved :=
                [(lit "run/plots/hist_A.png",
                  PerAlgorithm (lit "A") [0; 1] [1; 1]
                    (Some {| pc_max_k := 1; pc_num_inputs := 1;
                             pc_num_buckets := 2 |}) false);
                 (lit "run/plots/hist_B.png",
                  PerAlgorithm (lit "B") [0; 1; 2] [1; 1; 2]
                    (Some {| pc_max_k := 2; pc_num_inputs := 5;
                             pc_num_buckets := 4 |}) false);
                 (lit "run/plots/hist_overlay.png",
                  OverlayChart
                    [(lit "A", [0; 1], Fractions [0.5%float; 0.5%float]);
                     (lit "B", [0; 1], Fractions [0.5%float; 0.5%float])]
                    false)];
              printed := [lit "Done. Plots written to: run/plots"] |})
     /\ np.true_divide (occurrences 0 [0; 1; 2; 2]) (numBuckets B)
        = 0.25%float.
Proof.
  split; [exact overlay_line_fractions|].
  vm_compute. repeat split; reflexivity.
Qed.

(** An uncut table sums to the number of buckets, so its line shows the
    share of all buckets. *)
Lemma full_table_sum (counts : list Z) (k y : list Z) :
  Forall int63_nonneg counts ->
  Z.of_nat (length counts) < 2 ^ 63 ->
  compute_hist counts None = Ok (k, y) ->
  np.sum_int64 y = Z.of_nat (length counts).
Proof.
  intros Hc Hlen Hk.
  destruct (compute_hist_full_bins counts Hc) as (k' & y' & Hk' & Htot).
  rewrite Hk in Hk'. injection Hk' as <- <-.
  unfold np.sum_int64. rewrite Htot. apply wrap_signed_64_id. lia.
Qed.

(** ** Driver *)

Lemma run_bind {A B} (m : io A) (f : A -> io B) (s : effects) :
  run (m ≫= f) s
  = match run m s with
    | (Ok a, s') => run (f a) s'
    | (Raise e, s') => (Raise e, s')
    end.
Proof. reflexivity. Qed.

Lemma silent_bind {A B} (m : io A) (f : A -> io B) :
  silent m -> (forall a, silent (f a)) -> silent (m ≫= f).
Proof.
  intros Hm Hf s. rewrite run_bind. specialize (Hm s).
  destruct (run m s) as [[a|e] s1]; simpl in *; [|done].
  by rewrite Hf.
Qed.

Lemma silent_lift {A} (r : result A) : silent (lift r).
Proof. by intros s. Qed.

Lemma silent_mret {A} (a : A) : silent (mret a).
Proof. by intros s. Qed.

Section Driver.

Context (P : platform).

Lemma silent_save (path : str) (fig : figure) : silent (save P path fig).
Proof. intros s. unfold save. simpl. by destruct (savefig P path fig). Qed.

Lemma silent_mkdir (path : str) : silent (mkdir P path).
Proof. intros s. unfold mkdir. simpl. by destruct (path_mkdir P path). Qed.

Lemma silent_plot_per_algorithm meta k y out_dir show_poisson logy :
  silent (plot_per_algorithm P meta k y out_dir show_poisson logy).
Proof.
  unfold plot_per_algorithm.
  apply silent_bind; [apply silent_lift|]. intros _.
  apply silent_bind; [apply silent_lift|]. intros curve.
  apply silent_save.
Qed.

Lemma silent_plot_overlay alg_results out_dir normalize logy :
  silent (plot_overlay P alg_results out_dir normalize logy).
Proof. apply silent_save. Qed.

Lemma silent_process (a : args) (out_dir : str) (meta_files : list str) :
  silent (process P a out_dir meta_files).
Proof.
  induction meta_files as [|p rest IH]; [apply silent_mret|].
  cbn [process]. apply silent_bind; [apply silent_lift|]. intros loaded.
  apply silent_bind; [apply silent_lift|]. intros hist.
  apply silent_bind; [apply silent_plot_per_algorithm|]. intros _.
  apply silent_bind; [apply IH|]. intros more. apply silent_mret.
Qed.

(** A table is returned only with counts of the declared length. *)
Lemma load_algorithm_Ok_size (meta_path : str) (meta : AlgorithmMeta)
    (counts : list Z) :
  load_algorithm P meta_path = Ok (meta, counts) ->
  np.size counts = numBuckets meta.
Proof.
  unfold load_algorithm, np_fromfile.
  destruct (json_load P meta_path) as [m|e]; [|discriminate]. simpl.
  destruct (read_bytes P _) as [raw|e]; [|discriminate]. simpl.
  destruct (decide _) as [Hne|Heq]; [discriminate|].
  intros [= <- <-]. by apply dec_stable.
Qed.

(** The loop returns only when every descriptor was loaded. *)
Lemma process_Ok (a : args) (out_dir : str) (meta_files : list str)
    (s s' : effects) (data : list table) :
  run (process P a out_dir meta_files) s = (Ok data, s') ->
  Forall (fun p => exists meta counts,
            load_algorithm P (Path P p) = Ok (meta, counts)
            /\ np.size counts = numBuckets meta) meta_files.
Proof.
  revert s s' data. induction meta_files as [|p rest IH]; intros s s' data Hrun.
  { constructor. }
  cbn [process] in Hrun. rewrite run_bind in Hrun. unfold lift at 1 in Hrun.
  cbn [run] in Hrun.
  destruct (load_algorithm P (Path P p)) as [[meta counts]|e] eqn:Hload;
    [|discriminate].
  rewrite run_bind in Hrun. unfold lift at 1 in Hrun. cbn [run] in Hrun.
  destruct (compute_hist _ _) as [hist|e]; [|discriminate].
  rewrite run_bind in Hrun.
  destruct (run (plot_per_algorithm _ _ _ _ _ _ _) s) as [[[]|e] s1];
    [|discriminate].
  rewrite run_bind in Hrun.
  destruct (run (process P a out_dir rest) s1) as [[more|e] s2] eqn:Hrest;
    [|discriminate].
  constructor; [|by eapply IH].
  exists meta, counts. split; [done|]. by eapply load_algorithm_Ok_size.
Qed.

(** The loop raises when the load of some descriptor does. *)
Lemma process_Raise (a : args) (out_dir : str) (meta_files : list str)
    (p : str) (e : exn) (s : effects) :
  p ∈ meta_files -> load_algorithm P (Path P p) = Raise e ->
  exists e' s', run (process P a out_dir meta_files) s = (Raise e', s').
Proof.
  intros Hin Hload. revert s.
  induction Hin as [p rest|p q rest Hin IH]; intros s.
  - cbn [process]. rewrite run_bind. unfold lift at 1. cbn [run].
    rewrite Hload. eauto.
  - cbn [process]. rewrite run_bind. unfold lift at 1. cbn [run].
    destruct (load_algorithm P (Path P q)) as [loaded|e1]; [|eauto].
    rewrite run_bind. unfold lift at 1. cbn [run].
    destruct (compute_hist _ _) as [hist|e2]; [|eauto].
    rewrite run_bind.
    destruct (run (plot_per_algorithm _ _ _ _ _ _ _) s) as [[[]|e3] s1];
      [|eauto].
    rewrite run_bind.
    destruct (IH Hload s1) as (e' & s' & ->). eauto.
Qed.

(** The tables the loop collects have at least one row each (the
    per-algorithm chart asks for [k.max()]), so they are of the shape the
    alignment is stated for. *)
Lemma process_tables (a : args) (out_dir : str) (meta_files : list str)
    (s s' : effects) (data : list table) :
  run (process P a out_dir meta_files) s = (Ok data, s') ->
  length data = length meta_files /\ Forall hist_table data.
Proof.
  revert s s' data. induction meta_files as [|p rest IH]; intros s s' data Hrun.
  { injection Hrun as <- _. split; [done|constructor]. }
  cbn [process] in Hrun. rewrite run_bind in Hrun. unfold lift at 1 in Hrun.
  cbn [run] in Hrun.
  destruct (load_algorithm P (Path P p)) as [[meta counts]|e]; [|discriminate].
  rewrite run_bind in Hrun. unfold lift at 1 in Hrun. cbn [run] in Hrun.
  destruct (compute_hist _ _) as [[k y]|e] eqn:Hhist; [|discriminate].
  rewrite run_bind in Hrun. cbn [fst snd] in Hrun.
  destruct (run (plot_per_algorithm _ _ _ _ _ _ _) s) as [[[]|e] s1] eqn:Hplot;
    [|discriminate].
  rewrite run_bind in Hrun.
  destruct (run (process P a out_dir rest) s1) as [[more|e] s2] eqn:Hrest;
    [|discriminate].
  injection Hrun as <- _. destruct (IH _ _ _ Hrest) as [Hlen Hall].
  split; [simpl; by rewrite Hlen|]. constructor; [|done].
  eapply compute_hist_table; [exact Hhist|]. intros ->.
  unfold plot_per_algorithm in Hplot. rewrite run_bind in Hplot.
  unfold lift at 1 in Hplot. cbn [run] in Hplot.
  destruct (decide (numBuckets meta = 0)); [discriminate|].
  rewrite run_bind in Hplot. unfold lift at 1 in Hplot. cbn [run] in Hplot.
  discriminate.
Qed.

(** X3: in [main] the alignment cannot raise: once the loop has processed
    every descriptor of a non-empty list, every collected table has a row,
    and the overlay gets each of them cut to the least last k. *)
Theorem alignment_after_process (a : args) (out_dir : str)
    (meta_files : list str) (s s' : effects) (data : list table) :
  meta_files ≠ [] ->
  run (process P a out_dir meta_files) s = (Ok data, s') ->
  exists min_max_k,
    align data = Ok (map (cut_to min_max_k) data)
    /\ length data = length meta_files
    /\ Forall (fun t => min_max_k <= top_k t) data.
Proof.
  intros Hne Hrun. destruct (process_tables _ _ _ _ _ _ Hrun) as [Hlen Hall].
  assert (Hdata : data ≠ []).
  { intros ->. destruct meta_files; [done|discriminate]. }
  destruct (align_Ok data Hdata Hall) as (n & _ & _ & Hlow & Hali).
  exists n. done.
Qed.

Lemma items_i4_int32 (o : byteorder) (raw : list byte) :
  Forall (fun v => - 2 ^ 31 <= v < 2 ^ 31) (items_i4 o raw).
Proof.
  assert (H : forall n raw, (length raw <= n)%nat ->
    Forall (fun v => - 2 ^ 31 <= v < 2 ^ 31) (items_i4 o raw)).
  { clear raw. induction n as [|n IH]; intros raw Hn.
    - destruct raw; [constructor|simpl in Hn; lia].
    - destruct raw as [|b0 [|b1 [|b2 [|b3 rest]]]]; try constructor.
      + unfold decode_i4, np.wrap_signed.
        match goal with |- context [?x mod 2 ^ 32] =>
          pose proof (Z.mod_pos_bound x (2 ^ 32)) end. lia.
      + apply IH. simpl in Hn. lia. }
  by apply (H (length raw)).
Qed.

(** X4: for counts that were loaded, hold no negative entry and are fewer
    than 2^63, the table computed without a cap sums to the declared
    [numBuckets]; the normalised overlay value of such a table is the share
    of all buckets. *)
Theorem uncut_table_sums_to_num_buckets (meta_path : str)
    (meta : AlgorithmMeta) (counts k y : list Z) :
  load_algorithm P meta_path = Ok (meta, counts) ->
  Forall (fun v => 0 <= v) counts ->
  numBuckets meta < 2 ^ 63 ->
  compute_hist counts None = Ok (k, y) ->
  np.sum_int64 y = numBuckets meta
  /\ forall (i : nat) (v : Z), y !! i = Some v ->
       exists fractions,
         overlay_line true (meta, k, y) = (algorithm meta, k, Fractions fractions)
         /\ fractions !! i = Some (np.true_divide v (numBuckets meta)).
Proof.
  intros Hload Hge Hnb Hhist.
  pose proof (load_algorithm_Ok_size _ _ _ Hload) as Hsize.
  assert (Hc : Forall int63_nonneg counts).
  { unfold load_algorithm, np_fromfile in Hload.
    destruct (json_load P meta_path) as [m|e]; [|discriminate]. simpl in Hload.
    destruct (read_bytes P _) as [raw|e]; [|discriminate]. simpl in Hload.
    destruct (decide _); [discriminate|]. injection Hload as <- <-.
    pose proof (items_i4_int32 (dtype_order P (counts_dtype P m)) raw) as H32.
    rewrite Forall_forall in Hge, H32. apply Forall_forall. intros v Hv.
    specialize (Hge _ Hv). specialize (H32 _ Hv). unfold int63_nonneg.
    simpl in *. lia. }
  assert (Hsum : np.sum_int64 y = numBuckets meta).
  { rewrite (full_table_sum counts k y); [done|done| |done].
    unfold np.size in Hsize. lia. }
  split; [done|]. intros i v Hv.
  destruct (overlay_line_fractions (meta, k, y) i v Hv) as (fr & Hline & Hfr).
  exists fr. split; [done|]. simpl in Hfr. by rewrite Hsum in Hfr.
Qed.

Lemma process_first_Raise (a : args) (out_dir : str) (rest : list str)
    (p : str) (e : exn) (s : effects) :
  load_algorithm P (Path P p) = Raise e ->
  run (process P a out_dir (p :: rest)) s = (Raise e, s).
Proof.
  intros Hload. cbn [process]. rewrite run_bind. unfold lift at 1. cbn [run].
  by rewrite Hload.
Qed.

End Driver.

Section Exit.

Context (P : platform) (a : args).

Local Abbreviation run_dir := (run_dir_of P a).
Local Abbreviation meta_files := (meta_files_of P a).
Local Abbreviation out_dir := (out_dir_of P a).
Local Abbreviation body := (after_checks P a).

Lemma main_unfold :
  main P a
  = if negb (path_exists P run_dir) then
      raise (SystemExit (lit "Directory not found: " ++ run_dir))
    else
      match meta_files with
      | [] => raise (SystemExit (lit "No *.meta.json files found in " ++ run_dir))
      | _ :: _ => body
      end.
Proof. reflexivity. Qed.

Lemma main_missing_dir :
  path_exists P run_dir = false ->
  main P a = raise (SystemExit (lit "Directory not found: " ++ run_dir)).
Proof. intros H. rewrite main_unfold. by rewrite H. Qed.

Lemma main_no_files :
  path_exists P run_dir = true -> meta_files = [] ->
  main P a = raise (SystemExit (lit "No *.meta.json files found in " ++ run_dir)).
Proof. intros H Hnil. rewrite main_unfold. by rewrite H, Hnil. Qed.

Lemma main_body :
  path_exists P run_dir = true -> meta_files ≠ [] -> main P a = body.
Proof.
  intros H Hne. rewrite main_unfold, H. cbn [negb].
  by destruct meta_files.
Qed.

Lemma body_outcome (s : effects) :
  match run body s with
  | (Ok _, s') =>
      printed s' = printed s ++ [lit "Done. Plots written to: " ++ out_dir]
      /\ exists data s1 s2, run (process P a out_dir meta_files) s1 = (Ok data, s2)
  | (Raise _, s') => printed s' = printed s
  end.
Proof.
  unfold after_checks. rewrite run_bind.
  pose proof (silent_mkdir P out_dir s) as H1.
  destruct (run (mkdir P out_dir) s) as [[[]|e] s1]; simpl in H1; [|done].
  rewrite run_bind.
  pose proof (silent_process P a out_dir meta_files s1) as H2.
  destruct (run (process P a out_dir meta_files) s1) as [[data|e] s2] eqn:Hp;
    simpl in H2; [|congruence].
  rewrite run_bind.
  assert (H3 : silent (if overlay a then
                         aligned ← lift (align data);
                         plot_overlay P aligned out_dir true (logy a)
                       else mret ())).
  { destruct (overlay a); [|apply silent_mret].
    apply silent_bind; [apply silent_lift|]. intros aligned.
    apply silent_plot_overlay. }
  specialize (H3 s2).
  destruct (run (if overlay a then _ else _) s2) as [[[]|e] s3]; simpl in H3;
    [|congruence].
  simpl. split; [congruence|]. eauto.
Qed.

(** C9, amended: the run ends with status 1 and a message that names the
    cause when the results directory does not exist ([SystemExit],
    "Directory not found: ..."), when no *.meta.json file is found
    ([SystemExit], "No *.meta.json files found in ...") and when the counts
    of some descriptor have another length than declared ([ValueError] of
    [load_algorithm], which is what the run ends with when that descriptor
    is the first). Any other exception of a load ends the run with status 1
    as well, and no failed run prints the confirmation. The status is zero
    only when the directory exists, some descriptor was found and each one
    was loaded with counts of the declared length, and then the line
    "Done. Plots written to: <dir>/plots" has been printed. *)
Theorem main_exit_status :
  let outcome := run_script P a in
  (path_exists P run_dir = false ->
     outcome
     = (Raise (SystemExit (lit "Directory not found: " ++ run_dir)), no_effects))
  /\ (path_exists P run_dir = true -> meta_files = [] ->
        outcome
        = (Raise (SystemExit (lit "No *.meta.json files found in " ++ run_dir)),
           no_effects))
  /\ (forall p meta raw,
        p ∈ meta_files ->
        json_load P (Path P p) = Ok meta ->
        read_bytes P (path_join P (path_parent P (Path P p)) (countsFile meta))
        = Ok raw ->
        let size := np.size (items_i4 (declared_order P meta) raw) in
        size ≠ numBuckets meta ->
        load_algorithm P (Path P p)
        = Raise (ValueError (size_mismatch size meta (Path P p)))
        /\ exit_status outcome.1 = 1
        /\ (path_exists P run_dir = true ->
            path_mkdir P out_dir = Ok () ->
            (exists rest, meta_files = p :: rest) ->
            outcome.1 = Raise (ValueError (size_mismatch size meta (Path P p)))))
  /\ (forall p e, p ∈ meta_files -> load_algorithm P (Path P p) = Raise e ->
        exit_status outcome.1 = 1)
  /\ (exit_status outcome.1 = 0 ->
        path_exists P run_dir = true /\ meta_files ≠ []
        /\ Forall (fun p => exists meta counts,
                     load_algorithm P (Path P p) = Ok (meta, counts)
                     /\ np.size counts = numBuckets meta) meta_files
        /\ printed outcome.2 = [lit "Done. Plots written to: " ++ out_dir])
  /\ (exit_status outcome.1 <> 0 ->
        exists e, outcome.1 = Raise e /\ printed outcome.2 = []).
Proof.
  cbv zeta.
  assert (Hany : forall p e, p ∈ meta_files ->
            load_algorithm P (Path P p) = Raise e ->
            exit_status (run_script P a).1 = 1).
  { intros p e Hin Hload. unfold run_script.
    destruct (path_exists P run_dir) eqn:Hdir;
      [|by rewrite (main_missing_dir Hdir)].
    destruct (decide (meta_files = [])) as [Hnil|Hne];
      [by rewrite (main_no_files Hdir Hnil)|].
    rewrite (main_body Hdir Hne).
    pose proof (body_outcome no_effects) as Hout.
    destruct (run body no_effects) as [[[]|e'] s'] eqn:Hrun; [|done].
    exfalso. destruct Hout as (_ & data & s1 & s2 & Hp).
    destruct (process_Raise P a out_dir meta_files p e s1 Hin Hload)
      as (e' & s'' & Hr). congruence. }
  assert (Hfirst : forall p rest e,
            path_exists P run_dir = true -> meta_files = p :: rest ->
            path_mkdir P out_dir = Ok () ->
            load_algorithm P (Path P p) = Raise e ->
            (run_script P a).1 = Raise e).
  { intros p rest e Hdir Hfiles Hmk Hload. unfold run_script.
    rewrite main_body by (done || congruence).
    unfold after_checks. rewrite run_bind. unfold mkdir at 1. cbn [run].
    rewrite Hmk. rewrite run_bind, Hfiles.
    by rewrite (process_first_Raise P a out_dir rest p e _ Hload). }
  split; [|split; [|split; [|split; [|split]]]].
  - intros Hdir. unfold run_script. by rewrite (main_missing_dir Hdir).
  - intros Hdir Hnil. unfold run_script. by rewrite (main_no_files Hdir Hnil).
  - intros p meta raw Hin Hmeta Hraw Hsize.
    assert (Hload : load_algorithm P (Path P p)
              = Raise (ValueError
                  (size_mismatch
                     (np.size (items_i4 (declared_order P meta) raw))
                     meta (Path P p)))).
    { rewrite (load_algorithm_unfold P _ _ _ Hmeta Hraw). cbv zeta.
      by rewrite decide_True. }
    split; [done|]. split; [by eapply Hany|].
    intros Hdir Hmk [rest Hfiles]. by eapply Hfirst.
  - exact Hany.
  - intros Hexit. unfold run_script in *.
    destruct (path_exists P run_dir) eqn:Hdir;
      [|by rewrite (main_missing_dir Hdir) in Hexit].
    destruct (decide (meta_files = [])) as [Hnil|Hne];
      [by rewrite (main_no_files Hdir Hnil) in Hexit|].
    rewrite (main_body Hdir Hne) in *.
    pose proof (body_outcome no_effects) as Hout.
    destruct (run body no_effects) as [[[]|e'] s'] eqn:Hrun; [|done].
    destruct Hout as (Hpr & data & s1 & s2 & Hp).
    split; [done|]. split; [done|]. split; [by eapply process_Ok|done].
  - intros Hexit. unfold run_script in *.
    destruct (path_exists P run_dir) eqn:Hdir.
    2:{ rewrite (main_missing_dir Hdir). eexists. split; reflexivity. }
    destruct (decide (meta_files = [])) as [Hnil|Hne].
    { rewrite (main_no_files Hdir Hnil). eexists. split; reflexivity. }
    rewrite (main_body Hdir Hne) in *.
    pose proof (body_outcome no_effects) as Hout.
    destruct (run body no_effects) as [[[]|e'] s'] eqn:Hrun; [done|].
    exists e'. split; [done|]. exact Hout.
Qed.

End Exit.

(** Two runs in which the directory exists, a descriptor is found and no
    counts array has another length than declared, and which end with
    status 1: the counts file is missing in the first, the counts hold a
    negative entry in the second. *)
Lemma exit_nonzero_outside_three_conditions :
  let missing := Host.platform_of LittleEndian Host.missing_counts in
  let negative := Host.platform_of LittleEndian Host.negative_entry in
  let cli := Host.cli "run" None false in
  (path_exists missing (Path missing (results_dir cli)) = true
   /\ sorted (glob_glob missing (lit "run/*.meta.json")) = [lit "run/A.meta.json"]
   /\ load_algorithm missing (lit "run/A.meta.json")
      = Raise (OSError
          (lit "[Errno 2] No such file or directory: run/A_counts_i32_le.bin"))
   /\ (run_script missing cli).1
      = Raise (OSError
          (lit "[Errno 2] No such file or directory: run/A_counts_i32_le.bin"))
   /\ exit_status (run_script missing cli).1 = 1)
  /\ (path_exists negative (Path negative (results_dir cli)) = true
      /\ sorted (glob_glob negative (lit "run/*.meta.json"))
         = [lit "run/A.meta.json"]
      /\ load_algorithm negative (lit "run/A.meta.json")
         = Ok (Host.meta_of "A" 2 2 (Some "little"%string), [1; -1])
      /\ (run_script negative cli).1
         = Raise (ValueError
             (lit "'list' argument must have no negative elements"))
      /\ exit_status (run_script negative cli).1 = 1).
Proof. vm_compute. repeat split; reflexivity. Qed.

Example run_short_file :
  run_script (Host.platform_of LittleEndian Host.short_file)
    (Host.cli "run" None false)
  = (Raise (ValueError
       (lit "Counts size 4 != numBuckets 5 for run/A.meta.json")),
     {| made_dirs := [lit "run/plots"]; saved := []; printed := [] |}).
Proof. vm_compute. reflexivity. Qed.

Example run_missing_dir :
  run_script (Host.platform_of LittleEndian Host.one_algorithm)
    (Host.cli "nowhere" None false)
  = (Raise (SystemExit (lit "Directory not found: nowhere")), no_effects).
Proof. vm_compute. reflexivity. Qed.

Lemma alignment_after_process_witness :
  let A := Host.meta_of "A" 2 1 (Some "little"%string) in
  let B := Host.meta_of "B" 4 5 (Some "little"%string) in
  let data := [(A, [0; 1], [1; 1]); (B, [0; 1; 2], [1; 1; 2])] in
  exists min_max_k,
    align data = Ok (map (cut_to min_max_k) data)
    /\ length data = length [lit "run/A.meta.json"; lit "run/B.meta.json"]
    /\ Forall (fun t => min_max_k <= top_k t) data.
Proof.
  apply (alignment_after_process
           (Host.platform_of LittleEndian Host.two_algorithms)
           (Host.cli "run" None true) (lit "run/plots")
           [lit "run/A.meta.json"; lit "run/B.meta.json"] no_effects
           (run (process (Host.platform_of LittleEndian Host.two_algorithms)
                   (Host.cli "run" None true) (lit "run/plots")
                   [lit "run/A.meta.json"; lit "run/B.meta.json"])
              no_effects).2).
  - discriminate.
  - vm_compute. reflexivity.
Defined.

Lemma uncut_table_sums_witness :
  let B := Host.meta_of "B" 4 5 (Some "little"%string) in
  np.sum_int64 [1; 1; 2] = numBuckets B
  /\ forall (i : nat) (v : Z), [1; 1; 2] !! i = Some v ->
       exists fractions,
         overlay_line true (B, [0; 1; 2], [1; 1; 2])
         = (algorithm B, [0; 1; 2], Fractions fractions)
         /\ fractions !! i = Some (np.true_divide v (numBuckets B)).
Proof.
  apply (uncut_table_sums_to_num_buckets
           (Host.platform_of LittleEndian Host.two_algorithms)
           (lit "run/B.meta.json")
           (Host.meta_of "B" 4 5 (Some "little"%string))
           [0; 1; 2; 2] [0; 1; 2] [1; 1; 2]).
  - vm_compute. reflexivity.
  - repeat constructor; lia.
  - vm_compute. reflexivity.
  - reflexivity.
Defined.

(** ** Float64 facts

    What the specification of the primitive floats gives for integers
    below 2^53, for 1 and for 0. *)

Lemma digits2_pos_iter_xO (p n : positive) :
  digits2_pos (Pos.iter xO p n) = (digits2_pos p + n)%positive.
Proof.
  induction n as [|n IH] using Pos.peano_ind.
  - simpl. lia.
  - rewrite Pos.iter_succ. simpl. rewrite IH. lia.
Qed.

Lemma digits2_pos_lower (p : positive) :
  2 ^ (Zpos (digits2_pos p) - 1) <= Zpos p.
Proof.
  induction p as [p IH|p IH|]; simpl digits2_pos.
  - rewrite Pos2Z.inj_succ.
    replace (Z.succ (Zpos (digits2_pos p)) - 1) with (Z.succ (Zpos (digits2_pos p) - 1)) by lia.
    rewrite Z.pow_succ_r by lia. lia.
  - rewrite Pos2Z.inj_succ.
    replace (Z.succ (Zpos (digits2_pos p)) - 1) with (Z.succ (Zpos (digits2_pos p) - 1)) by lia.
    rewrite Z.pow_succ_r by lia. lia.
  - simpl. lia.
Qed.

Lemma digits2_pos_small (p : positive) :
  Zpos p < 2 ^ 53 -> Zpos (digits2_pos p) <= 53.
Proof.
  intros Hp. destruct (Z_le_gt_dec (Zpos (digits2_pos p)) 53) as [|Hgt]; [done|].
  pose proof (digits2_pos_lower p) as Hl.
  assert (2 ^ 53 <= 2 ^ (Zpos (digits2_pos p) - 1)) by (apply Z.pow_le_mono_r; lia).
  lia.
Qed.

Lemma shr_fexp_exact (m : positive) (e : Z) :
  digits2_pos m = 53%positive -> -1074 <= e ->
  shr_fexp prec emax (Zpos m) e loc_Exact
  = ({| shr_m := Zpos m; shr_r := false; shr_s := false |}, e).
Proof.
  intros Hd He. unfold shr_fexp. cbn [Zdigits2]. rewrite Hd.
  replace (fexp prec emax (53 + e) - e) with 0
    by (unfold fexp, SpecFloat.emin, prec, emax; lia).
  reflexivity.
Qed.

Lemma leb_emax (e : Z) : e <= 971 -> (e <=? emax - prec) = true.
Proof. intros He. apply Z.leb_le. unfold emax, prec. lia. Qed.

(** A mantissa of 53 digits with an exponent in range needs no rounding. *)
Lemma binary_round_aux_exact (s : bool) (m : positive) (e : Z) :
  digits2_pos m = 53%positive -> -1074 <= e <= 971 ->
  binary_round_aux prec emax s (Zpos m) e loc_Exact = S754_finite s m e.
Proof.
  intros Hd He. unfold binary_round_aux.
  rewrite shr_fexp_exact by (done || lia).
  cbn [shr_m loc_of_shr_record round_nearest_even].
  rewrite shr_fexp_exact by (done || lia). cbn [shr_m].
  by rewrite leb_emax by lia.
Qed.

(** A positive integer below 2^53 is a float64: the conversion is exact,
    positive and normal. *)
Lemma binary_normalize_small (p : positive) :
  Zpos p < 2 ^ 53 ->
  exists m e,
    binary_normalize prec emax (Zpos p) 0 false = S754_finite false m e
    /\ digits2_pos m = 53%positive /\ -52 <= e <= 0.
Proof.
  intros Hp. pose proof (digits2_pos_small p Hp) as Hd.
  unfold binary_normalize, binary_round.
  replace (fexp prec emax (Zpos (digits2_pos p) + 0))
    with (Zpos (digits2_pos p) - 53)
    by (unfold fexp, SpecFloat.emin, prec, emax; lia).
  unfold shl_align.
  destruct (Zpos (digits2_pos p) - 53 - 0) as [|q|q] eqn:Hq; [|lia|].
  - exists p, 0. rewrite binary_round_aux_exact by lia.
    split; [done|]. split; lia.
  - exists (Pos.iter xO p q), (Zpos (digits2_pos p) - 53).
    rewrite binary_round_aux_exact.
    + split; [done|]. split; [|lia]. rewrite digits2_pos_iter_xO. lia.
    + rewrite digits2_pos_iter_xO. lia.
    + lia.
Qed.

Lemma valid_finite_53 (s : bool) (m : positive) (e : Z) :
  digits2_pos m = 53%positive -> -1074 <= e <= 971 ->
  valid_binary (S754_finite s m e) = true.
Proof.
  intros Hd He. unfold SpecFloat.valid_binary, bounded, canonical_mantissa.
  rewrite Hd.
  apply andb_true_iff. split.
  - apply Z.eqb_eq. unfold fexp, SpecFloat.emin, prec, emax. lia.
  - apply Z.leb_le. unfold prec, emax. lia.
Qed.

Lemma float_of_int_small (z : Z) :
  0 < z < 2 ^ 53 ->
  exists m e,
    Prim2SF (np.float_of_int z) = S754_finite false m e
    /\ digits2_pos m = 53%positive /\ -52 <= e <= 0.
Proof.
  intros Hz. destruct z as [|p|p]; try lia.
  destruct (binary_normalize_small p) as (m & e & Hn & Hd & He); [lia|].
  exists m, e. unfold np.float_of_int. rewrite Hn.
  rewrite Prim2SF_SF2Prim by (apply valid_finite_53; lia). done.
Qed.

Lemma SFmul_one_l (s : bool) (m : positive) (e : Z) :
  digits2_pos m = 53%positive -> -1022 <= e <= 971 ->
  SF64mul (Prim2SF 1) (S754_finite s m e) = S754_finite s m e.
Proof.
  intros Hd He.
  change (Prim2SF 1) with (S754_finite false 4503599627370496 (-52)).
  unfold SF64mul, SFmul. cbn [xorb].
  change (4503599627370496 * m)%positive with (Pos.iter xO m 52).
  unfold binary_round_aux.
  assert (Hshr : shr_fexp prec emax
            (Zpos (Pos.iter xO m 52)) (-52 + e) loc_Exact
          = ({| shr_m := Zpos m; shr_r := false; shr_s := false |}, e)).
  { unfold shr_fexp. cbn [Zdigits2]. rewrite digits2_pos_iter_xO, Hd.
    replace (fexp prec emax (Zpos (53 + 52) + (-52 + e)) - (-52 + e)) with 52
      by (unfold fexp, SpecFloat.emin, prec, emax; lia).
    unfold shr. apply pair_equal_spec. split; [reflexivity|lia]. }
  rewrite Hshr. cbn [shr_m loc_of_shr_record round_nearest_even].
  rewrite shr_fexp_exact by (done || lia). cbn [shr_m].
  by rewrite leb_emax by lia.
Qed.

Lemma float_of_int_finite (z : Z) :
  0 <= z < 2 ^ 53 -> PrimFloat.is_infinity (np.float_of_int z) = false.
Proof.
  intros Hz. destruct (decide (z = 0)) as [->|Hnz]; [reflexivity|].
  destruct (float_of_int_small z) as (m & e & Hsf & _); [lia|].
  unfold PrimFloat.is_infinity. rewrite FloatAxioms.eqb_spec, FloatAxioms.abs_spec, Hsf. reflexivity.
Qed.

Lemma float_mul_one_l (z : Z) :
  0 <= z < 2 ^ 53 -> (1 * np.float_of_int z)%float = np.float_of_int z.
Proof.
  intros Hz. destruct (decide (z = 0)) as [->|Hnz]; [reflexivity|].
  destruct (float_of_int_small z) as (m & e & Hsf & Hd & He); [lia|].
  apply Prim2SF_inj. rewrite FloatAxioms.mul_spec, Hsf. apply SFmul_one_l; [done|lia].
Qed.

Lemma float_mul_zero_l (z : Z) :
  0 <= z < 2 ^ 53 -> (0 * np.float_of_int z)%float = 0%float.
Proof.
  intros Hz. destruct (decide (z = 0)) as [->|Hnz]; [reflexivity|].
  destruct (float_of_int_small z) as (m & e & Hsf & _); [lia|].
  apply Prim2SF_inj. rewrite FloatAxioms.mul_spec, Hsf. reflexivity.
Qed.

Lemma float_div_zero_l (z : Z) :
  0 < z < 2 ^ 53 -> (0 / np.float_of_int z)%float = 0%float.
Proof.
  intros Hz. destruct (float_of_int_small z) as (m & e & Hsf & _); [lia|].
  apply Prim2SF_inj. rewrite FloatAxioms.div_spec, Hsf. reflexivity.
Qed.

Lemma float_of_pyint_small (z : Z) :
  0 <= z < 2 ^ 53 -> float_of_pyint z = Returns (np.float_of_int z).
Proof.
  intros Hz. unfold float_of_pyint. by rewrite float_of_int_finite.
Qed.

(** ** PoissonModel *)

Lemma for_each_app {S} (body : S -> Z -> outcome S) (st : S) (ks1 ks2 : list Z) :
  for_each body st (ks1 ++ ks2)
  = (st' ← for_each body st ks1; for_each body st' ks2).
Proof.
  revert st. induction ks1 as [|k ks1 IH]; intros st; [done|].
  simpl. destruct (body st k) as [st'|e]; simpl; [apply IH|done].
Qed.

Lemma np_setitem_in (a : list float) (i : nat) (v : float) :
  (i < length a)%nat ->
  np_setitem a (Z.of_nat i) v = Returns (<[i := v]> a).
Proof.
  intros Hi. unfold np_setitem.
  replace ((0 <=? Z.of_nat i) && (Z.of_nat i <? Z.of_nat (length a))) with true.
  - by rewrite Nat2Z.id.
  - symmetry. apply andb_true_iff. split; [apply Z.leb_le|apply Z.ltb_lt]; lia.
Qed.

Lemma poisson_values_S (p0 lam n : float) (count : nat) :
  poisson_values p0 lam n (S count)
  = poisson_values p0 lam n count ++ [(poisson_p p0 lam count * n)%float].
Proof. unfold poisson_values. by rewrite seq_S, map_app. Qed.

Lemma poisson_values_length (p0 lam n : float) (count : nat) :
  length (poisson_values p0 lam n count) = count.
Proof. unfold poisson_values. by rewrite length_map, length_seq. Qed.

(** The loop after [j] rounds: [p] is P(j), the first [j + 1] entries are
    set and the others are still zero. *)
Lemma poisson_loop (lam : float) (N : Z) (n p0 : float) (max_k j : nat) :
  (j <= max_k)%nat -> Z.of_nat max_k < 2 ^ 53 ->
  float_of_pyint N = Returns n ->
  for_each (poisson_body lam N) (p0, (p0 * n)%float :: replicate max_k 0%float)
    (seqZ 0 (Z.of_nat j))
  = Returns (poisson_p p0 lam j,
             poisson_values p0 lam n (S j) ++ replicate (max_k - j) 0%float).
Proof.
  intros Hj Hmax Hn. induction j as [|j IH].
  - change (seqZ 0 (Z.of_nat 0)) with (@nil Z). cbn [for_each].
    by rewrite Nat.sub_0_r.
  - rewrite seqZ_S, for_each_app, IH by lia.
    cbn [mbind outcome_bind for_each]. unfold poisson_body.
    replace (0 + Z.of_nat j + 1) with (Z.of_nat (S j)) by lia.
    assert (Hd : 0 <= Z.of_nat (S j) < 2 ^ 53).
    { split; [lia|]. apply Z.le_lt_trans with (Z.of_nat max_k); [lia|done]. }
    rewrite (float_of_pyint_small _ Hd). cbn [mbind outcome_bind].
    rewrite Hn. cbn [mbind outcome_bind].
    rewrite np_setitem_in.
    2:{ rewrite length_app, poisson_values_length, length_replicate. lia. }
    cbn [mbind outcome_bind]. do 2 f_equal.
    rewrite insert_app_r_alt by (rewrite poisson_values_length; lia).
    rewrite poisson_values_length, Nat.sub_diag.
    replace (max_k - j)%nat with (S (max_k - S j)) by lia.
    rewrite (poisson_values_S _ _ _ (S j)). cbn [replicate].
    rewrite <- app_assoc. done.
Qed.

(** At rate 0 every P(k) after the first is 0. *)
Lemma poisson_p_zero_rate (j : nat) :
  Z.of_nat (S j) < 2 ^ 53 -> poisson_p 1 0 (S j) = 0%float.
Proof.
  induction j as [|j IH]; intros Hj.
  - cbn [poisson_p]. change (1 * 0)%float with 0%float.
    apply float_div_zero_l. lia.
  - cbn [poisson_p] in *. rewrite IH by lia.
    change (0 * 0)%float with 0%float. apply float_div_zero_l. lia.
Qed.

Lemma poisson_values_zero_rate (N : Z) (count : nat) :
  0 <= N < 2 ^ 53 -> Z.of_nat count < 2 ^ 53 ->
  poisson_values 1 0 (np.float_of_int N) (S count)
  = np.float_of_int N :: replicate count 0%float.
Proof.
  intros HN. induction count as [|count IH]; intros Hc.
  - unfold poisson_values. cbn [seq map poisson_p].
    by rewrite float_mul_one_l.
  - rewrite poisson_values_S, IH by lia. rewrite poisson_p_zero_rate by lia.
    rewrite float_mul_zero_l by done.
    change (np.float_of_int N :: replicate count 0%float)
      with ([np.float_of_int N] ++ replicate count 0%float).
    rewrite <- app_assoc. f_equal.
    change [0%float] with (replicate 1 0%float).
    rewrite <- replicate_add. f_equal. lia.
Qed.

Lemma poisson_values_lookup (p0 lam n : float) (count k : nat) :
  (k < count)%nat ->
  poisson_values p0 lam n count !! k = Some (poisson_p p0 lam k * n)%float.
Proof.
  intros Hk. unfold poisson_values. change (map ?f ?l) with (f <$> l).
  by rewrite list_lookup_fmap, lookup_seq_lt.
Qed.

Section PoissonFacts.

Context (math_exp : float -> outcome float).

(** The array, once [math.exp] and the conversion have returned. *)
Lemma poisson_eval (max_k : Z) (lam : float) (N : Z) (p0 n : float) :
  0 <= max_k < 2 ^ 53 ->
  math_exp (- lam)%float = Returns p0 ->
  float_of_pyint N = Returns n ->
  poisson_expected_counts math_exp max_k lam N
  = Returns (poisson_values p0 lam n (Z.to_nat (max_k + 1))).
Proof.
  intros Hk Hp Hn. unfold poisson_expected_counts, np_zeros.
  destruct (Z.ltb_spec (max_k + 1) 0) as [|_]; [lia|].
  cbn [mbind outcome_bind].
  replace (Z.to_nat (max_k + 1)) with (S (Z.to_nat max_k)) by lia.
  rewrite Hp. cbn [mbind outcome_bind]. rewrite Hn. cbn [mbind outcome_bind].
  change (np_setitem (replicate (S (Z.to_nat max_k)) 0%float) 0 (p0 * n)%float)
    with (Returns ((p0 * n)%float :: replicate (Z.to_nat max_k) 0%float)).
  cbn [mbind outcome_bind].
  replace (seqZ 0 max_k) with (seqZ 0 (Z.of_nat (Z.to_nat max_k)))
    by (by rewrite Z2Nat.id by lia).
  rewrite (poisson_loop lam N n p0 (Z.to_nat max_k) (Z.to_nat max_k))
    by (done || lia).
  cbn [mbind outcome_bind snd]. by rewrite Nat.sub_diag, app_nil_r.
Qed.

(** An array is returned only after both have returned. *)
Lemma poisson_inv (max_k : Z) (lam : float) (N : Z) (l : list float) :
  poisson_expected_counts math_exp max_k lam N = Returns l ->
  exists p0 n,
    math_exp (- lam)%float = Returns p0 /\ float_of_pyint N = Returns n.
Proof.
  unfold poisson_expected_counts.
  destruct (np_zeros (max_k + 1)); cbn [mbind outcome_bind]; [|done].
  destruct (math_exp (- lam)%float) as [p0|]; cbn [mbind outcome_bind]; [|done].
  destruct (float_of_pyint N) as [n|]; cbn [mbind outcome_bind]; [|done].
  intros _. by exists p0, n.
Qed.

(** C2, amended: in float64. For 0 <= max_k < 2^53, once [math.exp(-lam)]
    has returned p0 and [num_buckets] has converted to the float n (it does
    not above the float64 range), [poisson_expected_counts] returns an
    array of max_k + 1 entries; entry 0 is p0 * n and, with p the value of
    the loop variable, P(0) = p0 and P(k+1) = P(k) * lam / (k+1), the product
    rounded before the quotient, entry k is the rounded P(k) * n, so that
    the recurrence holds of p and not, after rounding, of the entries. At
    rate 0 with exp(-0.0) = 1 and num_buckets below 2^53 the array is exact:
    the number of buckets, then zeros. *)
Theorem poisson_expected_counts_float64 (max_k : Z) (lam : float) (N : Z)
    (p0 n : float) :
  0 <= max_k < 2 ^ 53 ->
  math_exp (- lam)%float = Returns p0 ->
  float_of_pyint N = Returns n ->
  exists expected,
    poisson_expected_counts math_exp max_k lam N = Returns expected
    /\ Z.of_nat (length expected) = max_k + 1
    /\ expected !! 0%nat = Some (p0 * n)%float
    /\ (forall k : nat, Z.of_nat k < max_k ->
          let p := poisson_p p0 lam k in
          expected !! k = Some (p * n)%float
          /\ expected !! S k
             = Some (p * lam / np.float_of_int (Z.of_nat k + 1) * n)%float)
    /\ (lam = 0%float -> p0 = 1%float -> 0 <= N < 2 ^ 53 ->
          expected = np.float_of_int N :: replicate (Z.to_nat max_k) 0%float).
Proof.
  intros Hk Hp Hn.
  exists (poisson_values p0 lam n (Z.to_nat (max_k + 1))).
  split; [by apply poisson_eval|].
  split; [rewrite poisson_values_length; lia|].
  split; [by rewrite poisson_values_lookup by lia|]. split.
  - intros k Hlt. cbn zeta.
    rewrite !poisson_values_lookup by lia. split; [done|].
    cbn [poisson_p]. do 4 f_equal. lia.
  - intros -> -> HN.
    assert (Hn' : n = np.float_of_int N).
    { rewrite (float_of_pyint_small N) in Hn by lia. by injection Hn. }
    subst n.
    replace (Z.to_nat (max_k + 1)) with (S (Z.to_nat max_k)) by lia.
    apply poisson_values_zero_rate; lia.
Qed.

(** X6: for 0 <= max_k < 2^53 [poisson_expected_counts] returns exactly
    when [math.exp(-lam)] returns and [num_buckets] converts to a float,
    and then the array has max_k + 1 entries, entry k being P(k) times the
    number of buckets with P(0) = exp(-lam) and
    P(k+1) = P(k) * lam / (k+1) in float64. *)
Theorem poisson_expected_counts_returns (max_k : Z) (lam : float) (N : Z)
    (l : list float) :
  0 <= max_k < 2 ^ 53 ->
  poisson_expected_counts math_exp max_k lam N = Returns l
  <-> exists p0 n,
        math_exp (- lam)%float = Returns p0
        /\ float_of_pyint N = Returns n
        /\ l = poisson_values p0 lam n (Z.to_nat (max_k + 1))
        /\ Z.of_nat (length l) = max_k + 1.
Proof.
  intros Hk. split.
  - intros Hl. destruct (poisson_inv _ _ _ _ Hl) as (p0 & n & Hp & Hn).
    rewrite (poisson_eval _ _ _ _ _ Hk Hp Hn) in Hl. injection Hl as <-.
    exists p0, n. split; [done|]. split; [done|]. split; [done|].
    rewrite poisson_values_length. lia.
  - intros (p0 & n & Hp & Hn & -> & _). by apply poisson_eval.
Qed.

(** X7: a larger [max_k] only extends the array: for
    0 <= m <= m' < 2^53 the array for [m] is the first m + 1 entries of the
    array for [m'], so a cap changes no value of the curve it keeps. *)
Theorem poisson_expected_counts_prefix (m m' : Z) (lam : float) (N : Z)
    (l' : list float) :
  0 <= m <= m' -> m' < 2 ^ 53 ->
  poisson_expected_counts math_exp m' lam N = Returns l' ->
  poisson_expected_counts math_exp m lam N
  = Returns (take (Z.to_nat (m + 1)) l').
Proof.
  intros Hm Hm' Hl'.
  destruct (poisson_inv _ _ _ _ Hl') as (p0 & n & Hp & Hn).
  rewrite (poisson_eval m' lam N p0 n) in Hl' by (done || lia).
  injection Hl' as <-.
  rewrite (poisson_eval m lam N p0 n) by (done || lia). f_equal.
  assert (Htake : take (Z.to_nat (m + 1))
                    (poisson_values p0 lam n (Z.to_nat (m' + 1)))
                  = poisson_values p0 lam n (Z.to_nat (m + 1))).
  { unfold poisson_values.
    change (map ?f ?x) with (f <$> x). rewrite <- fmap_take, take_seq.
    by rewrite Nat.min_l by lia. }
  by rewrite Htake.
Qed.

(** X8: below zero [max_k] is refused: [np.zeros] raises [ValueError] for
    max_k < -1, and for max_k = -1 the array is empty, so that the store
    of the first entry raises [IndexError] once [math.exp] and the
    conversion of [num_buckets] have returned; no array is returned. *)
Theorem poisson_expected_counts_negative (max_k : Z) (lam : float) (N : Z) :
  (max_k < -1 ->
     poisson_expected_counts math_exp max_k lam N
     = Raises (Builtin (ValueError (lit "negative dimensions are not allowed"))))
  /\ (max_k = -1 ->
        forall p0 n,
          math_exp (- lam)%float = Returns p0 ->
          float_of_pyint N = Returns n ->
          poisson_expected_counts math_exp max_k lam N
          = Raises (Builtin IndexError))
  /\ (max_k < 0 ->
        forall l, poisson_expected_counts math_exp max_k lam N <> Returns l).
Proof.
  assert (H1 : max_k < -1 ->
            poisson_expected_counts math_exp max_k lam N
            = Raises (Builtin
                (ValueError (lit "negative dimensions are not allowed")))).
  { intros Hk. unfold poisson_expected_counts, np_zeros.
    destruct (Z.ltb_spec (max_k + 1) 0); [done|lia]. }
  split; [done|]. split.
  - intros -> p0 n Hp Hn. unfold poisson_expected_counts.
    cbn [np_zeros Z.add Z.ltb Z.compare Z.to_nat replicate mbind outcome_bind].
    rewrite Hp. cbn [mbind outcome_bind]. rewrite Hn. done.
  - intros Hk l. destruct (decide (max_k = -1)) as [->|Hne].
    + unfold poisson_expected_counts.
      cbn [np_zeros Z.add Z.ltb Z.compare Z.to_nat replicate mbind outcome_bind].
      destruct (math_exp (- lam)%float); cbn [mbind outcome_bind]; [|done].
      destruct (float_of_pyint N); done.
    + rewrite H1 by lia. done.
Qed.

(** X9: at rate 0, with [math.exp(-0.0)] = 1 as the C standard has it,
    the array is exact: the first entry is the number of buckets as a float
    and every other entry is 0 (0 <= max_k < 2^53, 0 <= num_buckets < 2^53). *)
Theorem poisson_expected_counts_zero_rate (max_k N : Z) :
  math_exp (- 0)%float = Returns 1%float ->
  0 <= max_k < 2 ^ 53 -> 0 <= N < 2 ^ 53 ->
  poisson_expected_counts math_exp max_k 0 N
  = Returns (np.float_of_int N :: replicate (Z.to_nat max_k) 0%float).
Proof.
  intros Hexp Hk HN.
  rewrite (poisson_eval max_k 0 N 1 (np.float_of_int N))
    by (done || by apply float_of_pyint_small).
  f_equal.
  replace (Z.to_nat (max_k + 1)) with (S (Z.to_nat max_k)) by lia.
  apply poisson_values_zero_rate; lia.
Qed.

End PoissonFacts.

Lemma poisson_float64_witness :
  exists expected,
    poisson_expected_counts Libm.exp 3 0 10 = Returns expected
    /\ Z.of_nat (length expected) = 3 + 1
    /\ expected !! 0%nat = Some (1 * 10)%float
    /\ (forall k : nat, Z.of_nat k < 3 ->
          let p := poisson_p 1 0 k in
          expected !! k = Some (p * 10)%float
          /\ expected !! S k
             = Some (p * 0 / np.float_of_int (Z.of_nat k + 1) * 10)%float)
    /\ (0%float = 0%float -> 1%float = 1%float -> 0 <= 10 < 2 ^ 53 ->
          expected = np.float_of_int 10 :: replicate (Z.to_nat 3) 0%float).
Proof.
  apply (poisson_expected_counts_float64 Libm.exp 3 0 10 1 10).
  - lia.
  - reflexivity.
  - reflexivity.
Defined.

(** The claim as worded fails for a number of buckets that is a valid
    Python int: 10^400 buckets raise [OverflowError] where an array is
    promised, and at rate 0 with 2^53 + 1 buckets the first entry is 2^53,
    not the number of buckets. *)
Lemma poisson_large_num_buckets :
  poisson_expected_counts Libm.exp 1 0 (10 ^ 400)
  = Raises (OverflowError (lit "int too large to convert to float"))
  /\ poisson_expected_counts Libm.exp 1 0 (2 ^ 53 + 1)
     = Returns [np.float_of_int (2 ^ 53); 0%float]
  /\ Prim2SF (np.float_of_int (2 ^ 53)) = S754_finite false 4503599627370496 1
  /\ (4503599627370496 * 2 ^ 1 =? 2 ^ 53 + 1) = false.
Proof. vm_compute. repeat split; reflexivity. Qed.

Lemma poisson_returns_witness :
  poisson_expected_counts Libm.exp 3 0 10 = Returns [10; 0; 0; 0]%float
  <-> exists p0 n,
        Libm.exp (- 0)%float = Returns p0
        /\ float_of_pyint 10 = Returns n
        /\ [10; 0; 0; 0]%float = poisson_values p0 0 n (Z.to_nat (3 + 1))
        /\ Z.of_nat (length [10; 0; 0; 0]%float) = 3 + 1.
Proof.
  apply (poisson_expected_counts_returns Libm.exp 3 0 10 [10; 0; 0; 0]%float).
  lia.
Defined.

Lemma poisson_prefix_witness :
  poisson_expected_counts Libm.exp 1 0 10
  = Returns (take (Z.to_nat (1 + 1)) [10; 0; 0; 0]%float).
Proof.
  apply (poisson_expected_counts_prefix Libm.exp 1 3 0 10 [10; 0; 0; 0]%float).
  - lia.
  - lia.
  - reflexivity.
Defined.

Lemma poisson_zero_rate_witness :
  poisson_expected_counts Libm.exp 400 0 1000
  = Returns (np.float_of_int 1000 :: replicate (Z.to_nat 400) 0%float).
Proof.
  apply (poisson_expected_counts_zero_rate Libm.exp 400 1000).
  - reflexivity.
  - lia.
  - lia.
Defined.

(** ** HistogramComputer: errors and shape *)

Lemma existsb_neg_true (x : list Z) :
  existsb (fun v => v <? 0) x = true <-> Exists (fun v => v < 0) x.
Proof.
  rewrite existsb_exists, Exists_exists. split.
  - intros (v & Hin & Hv). exists v. split; [by apply list_elem_of_In|].
    by apply Z.ltb_lt.
  - intros (v & Hin & Hv). exists v. split; [by apply list_elem_of_In|].
    by apply Z.ltb_lt.
Qed.

(** X11: what [compute_hist] returns, by the whole table [full] it returns
    without a cap. With no cap or a cap of at least -1 the k values are
    0, 1, ... in step with the frequencies, which are the first
    min(cap + 1, len(full)) entries of [full]. With a cap below -1 the k
    values are empty while the frequencies are [full] without its last
    -(cap + 1) entries, so the two outputs are of different lengths unless
    [full] is that short. *)
Theorem compute_hist_shape (counts : list Z) (cap : option Z) (k y : list Z) :
  compute_hist counts cap = Ok (k, y) ->
  exists full,
    compute_hist counts None = Ok (seqZ 0 (Z.of_nat (length full)), full)
    /\ match cap with
       | None => k = seqZ 0 (Z.of_nat (length full)) /\ y = full
       | Some m =>
           if decide (-1 <= m) then
             k = seqZ 0 (Z.of_nat (length y))
             /\ y = take (Z.to_nat (m + 1)) full
           else
             k = []
             /\ y = take (Z.to_nat (Z.of_nat (length full) + (m + 1))) full
       end.
Proof.
  unfold compute_hist.
  destruct (np.bincount (np.astype_int64 counts)) as [h|e]; [|discriminate].
  cbn [mbind result_bind]. unfold np.size, np.arange0. intros Hk.
  exists h. split.
  { replace (Z.of_nat (length h) - 1 + 1) with (Z.of_nat (length h)) by lia.
    rewrite slice_to_nonneg by lia. rewrite Nat2Z.id, firstn_all. done. }
  destruct cap as [m|].
  - injection Hk as <- <-. destruct (decide (-1 <= m)) as [Hm|Hm].
    + assert (Hy : np.slice_to h (Z.min m (Z.of_nat (length h) - 1) + 1)
                   = take (Z.to_nat (m + 1)) h).
      { rewrite slice_to_nonneg by lia.
        destruct (decide (m <= Z.of_nat (length h) - 1)).
        - by rewrite Z.min_l by lia.
        - rewrite Z.min_r by lia. rewrite !take_ge by lia. done. }
      rewrite Hy. split; [|done]. f_equal. rewrite length_take. lia.
    + split.
      * apply length_zero_iff_nil. rewrite length_seqZ. lia.
      * rewrite Z.min_l by lia. unfold np.slice_to.
        destruct (Z.ltb_spec (m + 1) 0); [done|lia].
  - injection Hk as <- <-.
    replace (Z.of_nat (length h) - 1 + 1) with (Z.of_nat (length h)) by lia.
    rewrite slice_to_nonneg by lia. rewrite Nat2Z.id, firstn_all. done.
Qed.

Lemma compute_hist_shape_witness :
  exists full,
    compute_hist [0; 1; 2; 2] None = Ok (seqZ 0 (Z.of_nat (length full)), full)
    /\ (if decide (-1 <= -2) then
          @nil Z = seqZ 0 (Z.of_nat (length [1; 1]))
          /\ [1; 1] = take (Z.to_nat (-2 + 1)) full
        else
          @nil Z = []
          /\ [1; 1] = take (Z.to_nat (Z.of_nat (length full) + (-2 + 1))) full).
Proof.
  apply (compute_hist_shape [0; 1; 2; 2] (Some (-2)) [] [1; 1]).
  reflexivity.
Defined.

(** ** Alignment, composed *)

Lemma cut_to_cut_to (n : Z) (t : table) : cut_to n (cut_to n t) = cut_to n t.
Proof.
  unfold cut_to. cbn [fst snd]. f_equal.
  rewrite take_take. f_equal. lia.
Qed.

Lemma cut_to_hist_table (n : Z) (t : table) :
  hist_table t -> 0 <= n <= top_k t ->
  hist_table (cut_to n t) /\ top_k (cut_to n t) = n.
Proof.
  intros Ht Hn. destruct (hist_table_inv t Ht) as (_ & _ & _ & Hy). split.
  - exists n. split; [lia|]. split; [done|]. unfold cut_to. cbn [fst snd].
    rewrite length_take, length_seqZ. lia.
  - unfold top_k, cut_to. cbn [fst snd]. by rewrite last_seqZ by lia.
Qed.

(** X12: aligning is idempotent: the tables an alignment returns are
    returned unchanged by a second alignment. *)
Theorem align_idempotent (data aligned : list table) :
  data ≠ [] -> Forall hist_table data ->
  align data = Ok aligned -> align aligned = Ok aligned.
Proof.
  intros Hne Hall Hal.
  destruct (align_Ok data Hne Hall) as (n & Hn0 & Hin & Hlow & Hali).
  rewrite Hali in Hal. injection Hal as <-.
  assert (Hcut : Forall (fun t => hist_table t /\ top_k t = n)
                   (map (cut_to n) data)).
  { change (map (cut_to n) data) with (cut_to n <$> data).
    rewrite Forall_fmap. rewrite Forall_forall in Hall, Hlow.
    apply Forall_forall. intros t Ht. apply cut_to_hist_table; [by apply Hall|].
    specialize (Hlow _ Ht). simpl in Hlow. lia. }
  assert (Hne' : map (cut_to n) data ≠ []) by (by destruct data).
  destruct (align_Ok (map (cut_to n) data) Hne') as (n' & _ & Hin' & _ & ->).
  { eapply Forall_impl; [exact Hcut|]. by intros t [? _]. }
  assert (n' = n) as ->.
  { apply list_elem_of_fmap in Hin' as (t & -> & Ht).
    rewrite Forall_forall in Hcut. by destruct (Hcut _ Ht). }
  f_equal. rewrite map_map. apply map_ext. intros t. apply cut_to_cut_to.
Qed.

Lemma align_idempotent_witness :
  let A := Host.meta_of "A" 2 1 None in
  let B := Host.meta_of "B" 4 5 None in
  align [(B, [0; 1], [1; 1]); (A, [0; 1], [1; 1])]
  = Ok [(B, [0; 1], [1; 1]); (A, [0; 1], [1; 1])].
Proof.
  apply (align_idempotent
           [(Host.meta_of "B" 4 5 None, [0; 1; 2], [1; 1; 2]);
            (Host.meta_of "A" 2 1 None, [0; 1], [1; 1])]).
  - discriminate.
  - repeat constructor.
    + exists 2. split; [lia|]. split; reflexivity.
    + exists 1. split; [lia|]. split; reflexivity.
  - reflexivity.
Defined.

(** The table of a non-empty array with a cap that is absent or not
    negative, by the bins [h] of [np.bincount]. *)
Lemma compute_hist_cap_bins (counts : list Z) (cap : option Z) (top : Z) :
  Forall int63_nonneg counts -> is_max top counts ->
  match cap with Some m => 0 <= m | None => True end ->
  exists h c,
    0 <= c <= top
    /\ length h = Z.to_nat (top + 1)
    /\ compute_hist counts cap = Ok (seqZ 0 (c + 1), take (Z.to_nat (c + 1)) h)
    /\ forall n, 0 <= n <= c ->
         compute_hist counts (Some n)
         = Ok (seqZ 0 (n + 1), take (Z.to_nat (n + 1)) h).
Proof.
  intros Hc Hmax Hcap.
  pose proof (is_max_nonneg _ _ Hc Hmax) as Htop.
  destruct (compute_hist_bins counts top Hc Hmax) as (h & Hlen & _ & Hfull & Hm).
  assert (Hn : forall c n, 0 <= c <= top -> 0 <= n <= c ->
            compute_hist counts (Some n)
            = Ok (seqZ 0 (n + 1), take (Z.to_nat (n + 1)) h)).
  { intros c n Hc' Hn. rewrite Hm by lia. by rewrite Z.min_l by lia. }
  destruct cap as [m|].
  - exists h, (Z.min m top). split; [lia|]. split; [done|].
    split; [by apply Hm|]. intros n. apply Hn. lia.
  - exists h, top. split; [lia|]. split; [done|]. split.
    + rewrite Hfull. do 2 f_equal. rewrite take_ge; [done|lia].
    + intros n. apply Hn. lia.
Qed.

(** X13: the alignment gives what [compute_hist] gives with
    [max_k = min_max_k]: for non-empty arrays with entries that are not
    negative, tables computed with one cap (absent or not negative) and then
    aligned are the tables computed with the cap [min_max_k]. *)
Theorem align_is_recompute (inputs : list (AlgorithmMeta * list Z))
    (cap : option Z) (data : list table) :
  inputs ≠ [] ->
  match cap with Some m => 0 <= m | None => True end ->
  Forall (fun i => i.2 ≠ [] /\ Forall int63_nonneg i.2) inputs ->
  Forall2 (fun i t => t.1.1 = i.1 /\ compute_hist i.2 cap = Ok (t.1.2, t.2))
    inputs data ->
  exists min_max_k aligned,
    align data = Ok aligned
    /\ Forall2 (fun i t => t.1.1 = i.1
                  /\ compute_hist i.2 (Some min_max_k) = Ok (t.1.2, t.2))
         inputs aligned.
Proof.
  intros Hne Hcap Hin Hdata.
  assert (Hshape : Forall2 (fun i t =>
            exists h c, 0 <= c /\ t = (i.1, seqZ 0 (c + 1), take (Z.to_nat (c + 1)) h)
              /\ (Z.to_nat (c + 1) <= length h)%nat
              /\ forall n, 0 <= n <= c ->
                   compute_hist i.2 (Some n)
                   = Ok (seqZ 0 (n + 1), take (Z.to_nat (n + 1)) h))
            inputs data).
  { clear Hne. induction Hdata as [|i t inputs' data' [Hmeta Ht] _ IH];
      [constructor|].
    inversion Hin as [|? ? [Hnz Hc] Hin']; subst.
    constructor; [|by apply IH].
    destruct i as [meta [|v counts']]; [done|]. cbn [fst snd] in *.
    pose proof (foldl_max_is_max v counts') as Hmax.
    destruct (compute_hist_cap_bins _ cap _ Hc Hmax Hcap)
      as (h & c & Hc0 & Hlen & Heq & Hn).
    rewrite Heq in Ht. injection Ht as Hk Hy.
    exists h, c. split; [lia|]. split; [|split; [lia|done]].
    destruct t as [[m k] y]. cbn [fst snd] in *. by subst. }
  assert (Hall : Forall hist_table data).
  { apply Forall2_Forall_r with (1 := Hshape). apply Forall_forall.
    intros i _ t (h & c & Hc0 & -> & Hlen & _).
    exists c. split; [done|]. split; [done|]. cbn [fst snd].
    rewrite length_take, length_seqZ. lia. }
  assert (Hne' : data ≠ []).
  { intros ->. inversion Hdata; subst. done. }
  destruct (align_Ok data Hne' Hall) as (n & Hn0 & _ & Hlow & Hali).
  exists n, (map (cut_to n) data). split; [done|].
  change (map (cut_to n) data) with (cut_to n <$> data).
  apply Forall2_fmap_r.
  clear Hali Hne Hne' Hin Hdata Hall.
  induction Hshape as [|i t inputs' data' (h & c & Hc0 & -> & Hlen & Hn) _ IH];
    [constructor|].
  inversion Hlow as [|? ? Hle Hlow']; subst.
  constructor; [|by apply IH].
  assert (Htop : top_k (i.1, seqZ 0 (c + 1), take (Z.to_nat (c + 1)) h) = c).
  { unfold top_k. cbn [fst snd]. by rewrite last_seqZ. }
  rewrite Htop in Hle. unfold cut_to. cbn [fst snd]. split; [done|].
  rewrite Hn by lia. cbn [fst snd]. do 2 f_equal.
  rewrite take_take. f_equal. lia.
Qed.

Lemma align_is_recompute_witness :
  let A := Host.meta_of "A" 2 1 None in
  let B := Host.meta_of "B" 4 5 None in
  exists min_max_k aligned,
    align [(B, [0; 1; 2], [1; 1; 2]); (A, [0; 1], [1; 1])] = Ok aligned
    /\ Forall2 (fun i t => t.1.1 = i.1
                  /\ compute_hist i.2 (Some min_max_k) = Ok (t.1.2, t.2))
         [(B, [0; 1; 2; 2]); (A, [0; 1])] aligned.
Proof.
  apply (align_is_recompute
           [(Host.meta_of "B" 4 5 None, [0; 1; 2; 2]);
            (Host.meta_of "A" 2 1 None, [0; 1])]
           None
           [(Host.meta_of "B" 4 5 None, [0; 1; 2], [1; 1; 2]);
            (Host.meta_of "A" 2 1 None, [0; 1], [1; 1])]).
  - discriminate.
  - exact I.
  - repeat constructor; try discriminate; unfold int63_nonneg; cbn; lia.
  - repeat constructor.
Defined.

(** ** Whole runs *)

Section Runs.

Context (P : platform).

Lemma process_cons (a : args) (out_dir p : str) (rest : list str) (s : effects) :
  run (process P a out_dir (p :: rest)) s
  = match run (process_one P a out_dir p) s with
    | (Ok t, s1) =>
        match run (process P a out_dir rest) s1 with
        | (Ok more, s2) => (Ok (t :: more), s2)
        | (Raise e, s2) => (Raise e, s2)
        end
    | (Raise e, s1) => (Raise e, s1)
    end.
Proof.
  cbn [process]. unfold process_one. rewrite !run_bind.
  unfold lift at 1 3. cbn [run].
  destruct (load_algorithm P (Path P p)) as [loaded|e]; [|done].
  rewrite !run_bind. unfold lift at 1 2. cbn [run].
  destruct (compute_hist _ _) as [hist|e]; [|done].
  rewrite !run_bind.
  destruct (run (plot_per_algorithm _ _ _ _ _ _ _) s) as [[[]|e] s1]; [|done].
  rewrite run_bind. cbn [run mret io_ret].
  by destruct (run (process P a out_dir rest) s1) as [[more|e] s2].
Qed.

(** The largest k of a table is its last. *)
Lemma amax_hist_table (t : table) :
  hist_table t -> np.amax t.1.2 = Ok (top_k t).
Proof.
  intros Ht. destruct (hist_table_inv t Ht) as (H0 & _ & Hk & _).
  assert (Hmax : is_max (top_k t) t.1.2).
  { rewrite Hk. split.
    - apply elem_of_seqZ. lia.
    - apply Forall_forall. intros v Hv. apply elem_of_seqZ in Hv. lia. }
  destruct t.1.2 as [|v k'] eqn:E.
  - destruct Hmax as [Hin _]. by apply elem_of_nil in Hin.
  - cbn [np.amax]. f_equal.
    exact (is_max_unique _ _ _ (foldl_max_is_max v k') Hmax).
Qed.

(** A chart is saved only for a table with a row and a descriptor with
    buckets; it holds the table as it was passed and the Poisson curve up
    to the largest k. A call that raises leaves nothing behind. *)
Lemma plot_per_algorithm_run (meta : AlgorithmMeta) (k y : list Z)
    (out_dir : str) (lg : bool) (s : effects) :
  match run (plot_per_algorithm P meta k y out_dir true lg) s with
  | (Ok _, s') =>
      k ≠ [] /\ numBuckets meta ≠ 0
      /\ exists k_max,
           np.amax k = Ok k_max
           /\ s' = with_image s
                     (path_join P out_dir (per_algorithm_image P (algorithm meta)),
                      PerAlgorithm (algorithm meta) k y
                        (Some {| pc_max_k := k_max;
                                 pc_num_inputs := numInputs meta;
                                 pc_num_buckets := numBuckets meta |})
                        lg)
  | (Raise _, s') => s' = s
  end.
Proof.
  unfold plot_per_algorithm. rewrite run_bind. unfold lift at 1. cbn [run].
  destruct (decide (numBuckets meta = 0)) as [|Hnz]; [done|].
  rewrite run_bind. unfold lift at 1. cbn [run].
  destruct k as [|v k']; [done|]. cbn [np.amax mbind result_bind].
  unfold save. cbn [run].
  match goal with |- context [savefig P ?p ?f] =>
    destruct (savefig P p f); [|done] end.
  split; [done|]. split; [done|]. by eexists.
Qed.

Lemma process_one_run (a : args) (out_dir p : str) (s : effects) :
  match run (process_one P a out_dir p) s with
  | (Ok t, s') =>
      (exists counts,
         load_algorithm P (Path P p) = Ok (t.1.1, counts)
         /\ compute_hist counts (max_k a) = Ok (t.1.2, t.2))
      /\ t.1.2 ≠ [] /\ numBuckets t.1.1 ≠ 0
      /\ hist_table t
      /\ s' = with_image s (per_algorithm_chart P a out_dir t)
  | (Raise _, s') => s' = s
  end.
Proof.
  unfold process_one. rewrite run_bind. unfold lift at 1. cbn [run].
  destruct (load_algorithm P (Path P p)) as [[meta counts]|e]; [|done].
  rewrite run_bind. unfold lift at 1. cbn [run fst snd].
  destruct (compute_hist counts (max_k a)) as [[k y]|e] eqn:Hhist; [|done].
  rewrite run_bind. cbn [fst snd].
  pose proof (plot_per_algorithm_run meta k y out_dir (logy a) s) as Hplot.
  destruct (run (plot_per_algorithm _ _ _ _ _ _ _) s) as [[[]|e] s1]; [|done].
  destruct Hplot as (Hk & Hnz & k_max & Hmax & ->).
  pose proof (compute_hist_table meta _ _ _ _ Hhist Hk) as Ht.
  pose proof (amax_hist_table _ Ht) as Hlast. cbn [fst snd] in Hlast.
  rewrite Hlast in Hmax. injection Hmax as <-.
  cbn [run mret io_ret fst snd]. split; [by exists counts|].
  split; [done|]. split; [done|]. split; done.
Qed.

(** What the loop has done when it returns. *)
Lemma process_run (a : args) (out_dir : str) (meta_files : list str)
    (s s' : effects) (data : list table) :
  run (process P a out_dir meta_files) s = (Ok data, s') ->
  Forall2 (fun p t => exists counts,
             load_algorithm P (Path P p) = Ok (t.1.1, counts)
             /\ compute_hist counts (max_k a) = Ok (t.1.2, t.2))
    meta_files data
  /\ Forall hist_table data
  /\ s' = {| made_dirs := made_dirs s;
             saved := saved s ++ map (per_algorithm_chart P a out_dir) data;
             printed := printed s |}.
Proof.
  revert s s' data. induction meta_files as [|p rest IH]; intros s s' data Hrun.
  { injection Hrun as <- <-. split; [constructor|]. split; [constructor|].
    cbn [map]. rewrite app_nil_r. by destruct s. }
  rewrite process_cons in Hrun.
  pose proof (process_one_run a out_dir p s) as Hone.
  destruct (run (process_one P a out_dir p) s) as [[t|e] s1]; [|done].
  destruct Hone as (Hload & _ & _ & Ht & ->).
  destruct (run (process P a out_dir rest) _) as [[more|e] s2] eqn:Hrest;
    [|done].
  injection Hrun as <- <-.
  destruct (IH _ _ _ Hrest) as (Hall & Hts & ->).
  split; [by constructor|]. split; [by constructor|].
  cbn [with_image made_dirs saved printed map]. by rewrite <- app_assoc.
Qed.

(** The loop raises when one of its rounds raises wherever it starts. *)
Lemma process_round_Raise (a : args) (out_dir : str) (meta_files : list str)
    (p : str) :
  p ∈ meta_files ->
  (forall s, exists e, run (process_one P a out_dir p) s = (Raise e, s)) ->
  forall s, exists e s', run (process P a out_dir meta_files) s = (Raise e, s').
Proof.
  intros Hin Hp. induction Hin as [p rest|p q rest Hin IH]; intros s.
  - rewrite process_cons. destruct (Hp s) as (e & ->). eauto.
  - rewrite process_cons.
    destruct (run (process_one P a out_dir q) s) as [[t|e] s1]; [|eauto].
    destruct (IH Hp s1) as (e & s' & ->). eauto.
Qed.

End Runs.

(** With a negative cap the table has no k value. *)
Lemma compute_hist_negative_cap (counts : list Z) (m : Z) (k y : list Z) :
  m < 0 -> compute_hist counts (Some m) = Ok (k, y) -> k = [].
Proof.
  intros Hm. unfold compute_hist.
  destruct (np.bincount _) as [hist|e]; cbn [mbind result_bind]; [|done].
  intros [= <- _]. unfold np.arange0, seqZ.
  by replace (Z.to_nat (Z.min m (np.size hist - 1) + 1)) with 0%nat by lia.
Qed.

(** An int64 entry below zero is refused whatever the cap. *)
Lemma compute_hist_negative (counts : list Z) (cap : option Z) (v : Z) :
  v ∈ counts -> - 2 ^ 63 <= v < 0 ->
  exists e, compute_hist counts cap = Raise e.
Proof.
  intros Hin Hv. unfold compute_hist, np.bincount.
  assert (Hneg : existsb (fun v => v <? 0) (np.astype_int64 counts) = true).
  { apply existsb_neg_true, Exists_exists. exists v. split; [|lia].
    unfold np.astype_int64. change (map ?f ?l) with (f <$> l).
    apply list_elem_of_fmap. exists v. split; [|done].
    symmetry. apply wrap_signed_64_id. lia. }
  rewrite Hneg. cbn [mbind result_bind]. eauto.
Qed.

(** The counts [load_algorithm] returns are int32 values. *)
Lemma load_algorithm_int32 (P : platform) (meta_path : str)
    (meta : AlgorithmMeta) (counts : list Z) :
  load_algorithm P meta_path = Ok (meta, counts) ->
  Forall (fun v => - 2 ^ 31 <= v < 2 ^ 31) counts.
Proof.
  unfold load_algorithm, np_fromfile.
  destruct (json_load P meta_path) as [m|e]; [|discriminate]. simpl.
  destruct (read_bytes P _) as [raw|e]; [|discriminate]. simpl.
  destruct (decide _); [discriminate|].
  intros [= <- <-]. apply items_i4_int32.
Qed.

Section RunFacts.

Context (P : platform) (a : args).

Local Abbreviation run_dir := (run_dir_of P a).
Local Abbreviation meta_files := (meta_files_of P a).
Local Abbreviation out_dir := (out_dir_of P a).
Local Abbreviation body := (after_checks P a).

(** [main] after its two checks: the directory, the loop, the rest. *)
Lemma body_unfold :
  run body no_effects
  = match path_mkdir P out_dir with
    | Ok _ =>
        match run (process P a out_dir meta_files) (plots_made out_dir) with
        | (Ok data, s) => run (after_loop P a out_dir data) s
        | (Raise e, s) => (Raise e, s)
        end
    | Raise e => (Raise e, no_effects)
    end.
Proof.
  unfold after_checks. rewrite run_bind. unfold mkdir. cbn [run].
  destruct (path_mkdir P out_dir) as [[]|e]; [|done].
  rewrite run_bind. reflexivity.
Qed.

(** After the loop: with [--overlay] the tables are cut to the least last
    k and drawn as one chart, then the confirmation is printed. *)
Lemma after_loop_run (data : list table) (s : effects) :
  data ≠ [] -> Forall hist_table data ->
  exists n,
    0 <= n
    /\ n ∈ map top_k data
    /\ Forall (fun t => n <= top_k t) data
    /\ align data = Ok (map (cut_to n) data)
    /\ run (after_loop P a out_dir data) s
       = if overlay a then
           let chart := overlay_chart P a out_dir (map (cut_to n) data) in
           match savefig P chart.1 chart.2 with
           | Ok _ => (Ok (), confirmed (with_image s chart) out_dir)
           | Raise e => (Raise e, s)
           end
         else (Ok (), confirmed s out_dir).
Proof.
  intros Hne Hall.
  destruct (align_Ok data Hne Hall) as (n & Hn0 & Hin & Hlow & Hali).
  exists n. split; [done|]. split; [done|]. split; [done|]. split; [done|].
  unfold after_loop. rewrite run_bind. destruct (overlay a); [|done].
  rewrite run_bind. unfold lift at 1. cbn [run]. rewrite Hali.
  unfold plot_overlay, save, overlay_chart, overlay_path. cbn [run fst snd].
  by destruct (savefig P _ _).
Qed.

(** C6: when the overlay is requested, [main] draws the aligned tables and
    no others. For the non-empty collection [data] of tables (k values
    0 .. m with as many frequencies) the alignment succeeds; with
    [min_max_k] the least of the tables' last k values, every table is
    returned with the k values 0 .. [min_max_k] and the frequencies of those
    k: a table that ends above [min_max_k] is cut there, a table that ends at
    [min_max_k] is returned as it is, and no table grows. When [data] is
    what the loop of [main] has collected, the run ends by saving the
    overlay of exactly these aligned tables and printing the confirmation
    (or with the exception of [savefig]); without [--overlay] nothing is
    cut or drawn after the loop. *)
Theorem align_cuts_to_least_last_k (data : list table) :
  data ≠ [] -> Forall hist_table data ->
  exists min_max_k aligned,
    align data = Ok aligned
    /\ (exists t, t ∈ data /\ last t.1.2 = Some min_max_k)
    /\ (forall t, t ∈ data ->
          exists k_last, last t.1.2 = Some k_last /\ min_max_k <= k_last)
    /\ length aligned = length data
    /\ (forall (i : nat) meta k y, data !! i = Some (meta, k, y) ->
          exists k' y',
            aligned !! i = Some (meta, k', y')
            /\ k' = seqZ 0 (min_max_k + 1)
            /\ y' = take (length k') y
            /\ last k' = Some min_max_k
            /\ (last k = Some min_max_k -> k' = k /\ y' = y)
            /\ (length k' <= length k)%nat
            /\ (length y' <= length y)%nat
            /\ length y' = length k')
    /\ (forall s : effects,
          path_exists P run_dir = true ->
          path_mkdir P out_dir = Ok () ->
          run (process P a out_dir meta_files) (plots_made out_dir)
          = (Ok data, s) ->
          run_script P a
          = if overlay a then
              let chart :=
                (overlay_path P out_dir,
                 OverlayChart (map (overlay_line true) aligned) (logy a)) in
              match savefig P chart.1 chart.2 with
              | Ok _ => (Ok (), confirmed (with_image s chart) out_dir)
              | Raise e => (Raise e, s)
              end
            else (Ok (), confirmed s out_dir)).
Proof.
  intros Hne Hall.
  destruct (after_loop_run data no_effects Hne Hall)
    as (n & Hn0 & Hin & Hlow & Hali & _).
  apply list_elem_of_fmap in Hin as (tn & Hn & Htn).
  exists n, (map (cut_to n) data). split; [done|].
  split; [|split; [|split; [|split]]].
  - exists tn. split; [done|].
    rewrite Forall_forall in Hall.
    destruct (hist_table_inv tn (Hall _ Htn)) as (_ & Hl & _). by rewrite Hn.
  - intros t Ht. rewrite Forall_forall in Hall, Hlow.
    destruct (hist_table_inv t (Hall _ Ht)) as (_ & Hl & _).
    exists (top_k t). split; [done|]. by apply Hlow.
  - by rewrite length_map.
  - intros i meta k y Hi. rewrite Forall_forall in Hall, Hlow.
    assert (Ht : (meta, k, y) ∈ data) by (apply list_elem_of_lookup; eauto).
    destruct (hist_table_inv _ (Hall _ Ht)) as (Htop & Hl & Hk & Hy).
    specialize (Hlow _ Ht). simpl in Hl, Hk, Hy, Hlow.
    exists (seqZ 0 (n + 1)), (take (Z.to_nat (n + 1)) y).
    split; [|split; [|split; [|split; [|split; [|split; [|split]]]]]].
    + change (map (cut_to n) data) with (cut_to n <$> data).
      rewrite list_lookup_fmap, Hi. done.
    + done.
    + rewrite length_seqZ. done.
    + by apply last_seqZ.
    + intros Hlast. rewrite Hl in Hlast. injection Hlast as Heq.
      destruct (align_one_cut n (meta, k, y)) as [_ Hsame];
        [by apply Hall|lia|].
      specialize (Hsame Heq). unfold cut_to in Hsame. simpl in Hsame.
      injection Hsame as Hk' Hy'. done.
    + rewrite Hk, !length_seqZ. lia.
    + rewrite length_take. lia.
    + rewrite length_take, length_seqZ, Hy. lia.
  - intros s Hdir Hmk Hloop.
    assert (Hfiles : meta_files ≠ []).
    { intros Hnil. rewrite Hnil in Hloop. injection Hloop as <- _. done. }
    unfold run_script. rewrite (main_body P a Hdir Hfiles), body_unfold.
    rewrite Hmk, Hloop.
    destruct (after_loop_run data s Hne Hall)
      as (n' & _ & Hin' & Hlow' & Hali' & ->).
    rewrite Hali in Hali'. injection Hali' as <-. done.
Qed.

(** X5: what a run that returns leaves behind. The results directory
    exists and holds a descriptor; the run has made the directory
    [plots] and nothing else; it has saved one chart for each descriptor,
    in the sorted order of the descriptors' paths and each under the name of
    its algorithm, holding the table [compute_hist] gives for the loaded
    counts with the cap of the command line and the Poisson curve up to the
    table's last k; then, when the overlay was asked for and not otherwise,
    the overlay of these tables cut to the least of their last k; and it has
    printed the confirmation as its only line. *)
Theorem main_returns_effects (eff : effects) :
  run_script P a = (Ok (), eff) ->
  path_exists P run_dir = true
  /\ exists (data : list table) (min_max_k : Z),
       data ≠ []
       /\ Forall2 (fun p t => exists counts,
                     load_algorithm P (Path P p) = Ok (t.1.1, counts)
                     /\ compute_hist counts (max_k a) = Ok (t.1.2, t.2))
            meta_files data
       /\ min_max_k ∈ map top_k data
       /\ Forall (fun t => min_max_k <= top_k t) data
       /\ made_dirs eff = [out_dir]
       /\ saved eff
          = map (per_algorithm_chart P a out_dir) data
              ++ (if overlay a
                  then [overlay_chart P a out_dir (map (cut_to min_max_k) data)]
                  else [])
       /\ printed eff = [lit "Done. Plots written to: " ++ out_dir].
Proof.
  unfold run_script. rewrite main_unfold.
  destruct (path_exists P run_dir); [|done]. cbn [negb].
  destruct meta_files as [|p rest] eqn:Hfiles; [done|].
  rewrite body_unfold, Hfiles.
  destruct (path_mkdir P out_dir) as [[]|e]; [|done].
  destruct (run (process P a out_dir (p :: rest)) (plots_made out_dir))
    as [[data|e] s] eqn:Hloop; [|done].
  apply process_run in Hloop as (Hload & Hall & ->).
  assert (Hne : data ≠ []).
  { intros ->. inversion Hload. }
  match goal with |- context [run (after_loop P a out_dir data) ?s0] =>
    destruct (after_loop_run data s0 Hne Hall)
      as (n & _ & Hin & Hlow & _ & ->) end.
  intros Hrun. split; [done|]. exists data, n.
  split; [done|]. split; [done|]. split; [done|]. split; [done|].
  destruct (overlay a).
  - cbn zeta in Hrun. destruct (savefig P _ _); [|done].
    injection Hrun as <-. cbn [confirmed with_image plots_made made_dirs
      saved printed app]. done.
  - injection Hrun as <-. cbn [confirmed plots_made made_dirs saved printed
      app]. by rewrite app_nil_r.
Qed.

(** A round that raises wherever it starts ends the run without the
    confirmation. *)
Lemma body_round_Raise (p : str) :
  p ∈ meta_files ->
  (forall s, exists e, run (process_one P a out_dir p) s = (Raise e, s)) ->
  forall s, exists e s', run body s = (Raise e, s') /\ printed s' = printed s.
Proof.
  intros Hin Hp s. pose proof (body_outcome P a s) as Hbody.
  destruct (run body s) as [[[]|e] s']; [|eauto].
  destruct Hbody as (_ & data & s1 & s2 & Hrun).
  destruct (process_round_Raise P a out_dir meta_files p Hin Hp s1)
    as (e & s3 & Hraise).
  congruence.
Qed.

Lemma process_one_negative_cap (m : Z) (p : str) (s : effects) :
  max_k a = Some m -> m < 0 ->
  exists e, run (process_one P a out_dir p) s = (Raise e, s).
Proof.
  intros Hcap Hm. pose proof (process_one_run P a out_dir p s) as Hone.
  destruct (run (process_one P a out_dir p) s) as [[t|e] s1];
    [|subst; eauto].
  destruct Hone as ((counts & _ & Hhist) & Hk & _). rewrite Hcap in Hhist.
  by apply compute_hist_negative_cap in Hhist.
Qed.

Lemma process_one_unusable (p : str) (meta : AlgorithmMeta) (counts : list Z)
    (s : effects) :
  load_algorithm P (Path P p) = Ok (meta, counts) ->
  numBuckets meta = 0 \/ Exists (fun v => v < 0) counts ->
  exists e, run (process_one P a out_dir p) s = (Raise e, s).
Proof.
  intros Hload Hbad. pose proof (process_one_run P a out_dir p s) as Hone.
  destruct (run (process_one P a out_dir p) s) as [[t|e] s1];
    [|subst; eauto].
  destruct Hone as ((counts' & Hload' & Hhist) & _ & Hnz & _).
  rewrite Hload in Hload'. injection Hload' as Hmeta <-. subst meta.
  destruct Hbad as [Hzero|Hneg]; [done|].
  apply Exists_exists in Hneg as (v & Hin & Hv).
  pose proof (load_algorithm_int32 _ _ _ _ Hload) as Hrange.
  rewrite Forall_forall in Hrange. specialize (Hrange v Hin).
  destruct (compute_hist_negative counts (max_k a) v Hin) as (e & He); [lia|].
  congruence.
Qed.

(** X15: a negative [--max-k] never gives a chart. Whatever the directory
    holds, the run ends with status 1, has saved no image and has not
    printed the confirmation: the table of the first descriptor has no k
    value, and the per-algorithm chart asks for the largest. *)
Theorem main_negative_max_k (m : Z) :
  max_k a = Some m -> m < 0 ->
  exit_status (run_script P a).1 = 1
  /\ saved (run_script P a).2 = []
  /\ printed (run_script P a).2 = [].
Proof.
  intros Hcap Hm. unfold run_script. rewrite main_unfold.
  destruct (path_exists P run_dir); [|done]. cbn [negb].
  destruct meta_files as [|p rest] eqn:Hfiles; [done|].
  unfold after_checks. rewrite Hfiles, run_bind. unfold mkdir. cbn [run].
  destruct (path_mkdir P out_dir) as [[]|e]; [|done].
  rewrite run_bind, process_cons.
  match goal with |- context [run (process_one P a out_dir p) ?s0] =>
    destruct (process_one_negative_cap m p s0 Hcap Hm) as (e & ->) end.
  done.
Qed.

(** X16: counts that were loaded but cannot be charted end the run with
    status 1 and without the confirmation: a descriptor with
    [numBuckets = 0] (the rate divides by it) and a counts file with a
    negative entry ([np.bincount] refuses it), wherever the descriptor
    stands among the others. *)
Theorem main_unusable_counts (p : str) (meta : AlgorithmMeta)
    (counts : list Z) :
  p ∈ meta_files ->
  load_algorithm P (Path P p) = Ok (meta, counts) ->
  numBuckets meta = 0 \/ Exists (fun v => v < 0) counts ->
  exit_status (run_script P a).1 = 1 /\ printed (run_script P a).2 = [].
Proof.
  intros Hin Hload Hbad. unfold run_script. rewrite main_unfold.
  destruct (path_exists P run_dir); [|done]. cbn [negb].
  destruct meta_files as [|q rest] eqn:Hfiles; [by apply elem_of_nil in Hin|].
  rewrite <- Hfiles in Hin.
  destruct (body_round_Raise p Hin
              (fun s => process_one_unusable p meta counts s Hload Hbad)
              no_effects) as (e & s' & -> & Hprinted).
  done.
Qed.

End RunFacts.

Lemma main_negative_max_k_witness :
  let P := Host.platform_of LittleEndian Host.one_algorithm in
  let a := Host.cli "run" (Some (-1)) true in
  exit_status (run_script P a).1 = 1
  /\ saved (run_script P a).2 = []
  /\ printed (run_script P a).2 = [].
Proof.
  apply (main_negative_max_k (Host.platform_of LittleEndian Host.one_algorithm)
           (Host.cli "run" (Some (-1)) true) (-1)).
  - reflexivity.
  - lia.
Defined.

Lemma main_unusable_counts_witness :
  let P := Host.platform_of LittleEndian Host.negative_entry in
  let a := Host.cli "run" None false in
  exit_status (run_script P a).1 = 1 /\ printed (run_script P a).2 = [].
Proof.
  apply (main_unusable_counts
           (Host.platform_of LittleEndian Host.negative_entry)
           (Host.cli "run" None false)
           (lit "run/A.meta.json")
           (Host.meta_of "A" 2 2 (Some "little"%string)) [1; -1]).
  - vm_compute. apply list_elem_of_here.
  - vm_compute. reflexivity.
  - right. apply Exists_cons_tl, Exists_cons_hd. lia.
Defined.

(** ** The order of the descriptors *)

Lemma str_leb_total (s t : str) : str_leb s t = false -> str_leb t s = true.
Proof.
  revert t. induction s as [|c s IH]; intros [|d t]; cbn [str_leb]; try done.
  destruct (N.ltb_spec c d), (N.ltb_spec d c), (N.eqb_spec c d),
    (N.eqb_spec d c); cbn [orb andb]; try done; try lia.
  apply IH.
Qed.

Lemma str_leb_antisym (s t : str) :
  str_leb s t = true -> str_leb t s = true -> s = t.
Proof.
  revert t. induction s as [|c s IH]; intros [|d t]; cbn [str_leb]; try done.
  destruct (N.ltb_spec c d), (N.ltb_spec d c), (N.eqb_spec c d),
    (N.eqb_spec d c); cbn [orb andb]; try done; try lia.
  intros Hst Hts. subst. f_equal. by apply IH.
Qed.

Lemma str_leb_trans (s t u : str) :
  str_leb s t = true -> str_leb t u = true -> str_leb s u = true.
Proof.
  revert t u. induction s as [|c s IH]; intros [|d t] [|e u];
    cbn [str_leb]; try done.
  destruct (N.ltb_spec c d), (N.ltb_spec d e), (N.ltb_spec c e),
    (N.eqb_spec c d), (N.eqb_spec d e), (N.eqb_spec c e);
    cbn [orb andb]; try done; try lia.
  apply IH.
Qed.

Lemma insert_sorted_comm (x y : str) (l : list str) :
  insert_sorted x (insert_sorted y l) = insert_sorted y (insert_sorted x l).
Proof.
  induction l as [|t l IH]; cbn [insert_sorted].
  - destruct (str_leb x y) eqn:Hxy, (str_leb y x) eqn:Hyx; try done.
    + by rewrite (str_leb_antisym x y).
    + apply str_leb_total in Hxy. congruence.
  - destruct (str_leb y t) eqn:Hyt, (str_leb x t) eqn:Hxt;
      cbn [insert_sorted]; rewrite ?Hyt, ?Hxt.
    + destruct (str_leb x y) eqn:Hxy, (str_leb y x) eqn:Hyx; try done.
      * by rewrite (str_leb_antisym x y).
      * apply str_leb_total in Hxy. congruence.
    + destruct (str_leb x y) eqn:Hxy; [|done].
      by rewrite (str_leb_trans x y t) in Hxt.
    + destruct (str_leb y x) eqn:Hyx; [|done].
      by rewrite (str_leb_trans y x t) in Hyt.
    + by rewrite IH.
Qed.

(** [sorted] gives one list for every order of the same entries. *)
Lemma sorted_Permutation (l1 l2 : list str) : l1 ≡ₚ l2 -> sorted l1 = sorted l2.
Proof.
  unfold sorted. induction 1 as [|x l1 l2 _ IH|x y l|l1 l2 l3 _ IH1 _ IH2];
    cbn [foldr]; [done|by rewrite IH|apply insert_sorted_comm|congruence].
Qed.

(** X17: the run does not depend on the order in which [glob.glob] lists
    the descriptors: with the same entries in any other order the run
    returns or raises the same, and makes, saves and prints the same in the
    same order. *)
Theorem run_script_glob_order (P : platform) (a : args)
    (g : str -> list str) :
  (forall pattern, g pattern ≡ₚ glob_glob P pattern) ->
  run_script (with_glob P g) a = run_script P a.
Proof.
  intros Hg.
  assert (Hfiles : meta_files_of (with_glob P g) a = meta_files_of P a).
  { unfold meta_files_of. apply sorted_Permutation, Hg. }
  assert (Hbody : after_checks (with_glob P g) a = after_checks P a).
  { unfold after_checks. rewrite Hfiles. reflexivity. }
  unfold run_script. rewrite !main_unfold, Hfiles, Hbody. reflexivity.
Qed.

Lemma run_script_glob_order_witness :
  let P := Host.platform_of LittleEndian Host.two_algorithms in
  let a := Host.cli "run" None true in
  run_script
    (with_glob P (fun pattern => reverse (Host.glob Host.two_algorithms pattern)))
    a
  = run_script P a.
Proof.
  apply (run_script_glob_order
           (Host.platform_of LittleEndian Host.two_algorithms)
           (Host.cli "run" None true)
           (fun pattern => reverse (Host.glob Host.two_algorithms pattern))).
  intros pattern. apply reverse_Permutation.
Defined.

(** ** The histogram and the order of the buckets *)

Lemma existsb_Permutation {A} (f : A -> bool) (l1 l2 : list A) :
  l1 ≡ₚ l2 -> existsb f l1 = existsb f l2.
Proof.
  induction 1 as [|x l1 l2 _ IH|x y l|l1 l2 l3 _ IH1 _ IH2]; cbn [existsb];
    [done|by rewrite IH|by destruct (f x), (f y)|congruence].
Qed.

Lemma existsb_neg_nonneg (x : list Z) :
  existsb (fun v => v <? 0) x = false -> Forall (fun v => 0 <= v) x.
Proof.
  intros Hno. apply Forall_forall. intros v Hin.
  destruct (Z.ltb_spec v 0) as [Hv|]; [|done].
  assert (existsb (fun v => v <? 0) x = true); [|congruence].
  apply existsb_neg_true, Exists_exists. by exists v.
Qed.

Lemma is_max_Permutation (top : Z) (a a' : list Z) :
  a ≡ₚ a' -> is_max top a -> is_max top a'.
Proof. intros Hp [Hin Hall]. split; by rewrite <- Hp. Qed.

Lemma occurrences_Permutation (k : Z) (a a' : list Z) :
  a ≡ₚ a' -> occurrences k a = occurrences k a'.
Proof. intros Hp. unfold occurrences. by rewrite Hp. Qed.

Lemma tally_Permutation (out x x' : list Z) :
  Forall (fun v => 0 <= v) x -> x ≡ₚ x' -> np.tally out x = np.tally out x'.
Proof.
  intros Hx Hp. apply list_eq. intros j.
  rewrite !tally_lookup by (done || by rewrite <- Hp).
  by rewrite (occurrences_Permutation _ _ _ Hp).
Qed.

Lemma bincount_Permutation (x x' : list Z) :
  x ≡ₚ x' -> np.bincount x = np.bincount x'.
Proof.
  intros Hp. unfold np.bincount.
  rewrite <- (existsb_Permutation _ _ _ Hp).
  destruct (existsb _ x) eqn:Hneg; [done|].
  apply existsb_neg_nonneg in Hneg.
  destruct x as [|v r], x' as [|v' r']; [done| | |].
  - by apply Permutation_nil_cons in Hp.
  - symmetry in Hp. by apply Permutation_nil_cons in Hp.
  - pose proof (is_max_Permutation _ _ _ Hp (foldl_max_is_max v r)) as Hmax.
    rewrite (is_max_unique _ _ _ Hmax (foldl_max_is_max v' r')).
    f_equal. by apply tally_Permutation.
Qed.

(** X18: the histogram does not depend on the order of the buckets: two
    arrays with the same entries in any order give the same table, or the
    same exception, whatever the cap. *)
Theorem compute_hist_Permutation (counts counts' : list Z) (cap : option Z) :
  counts ≡ₚ counts' -> compute_hist counts cap = compute_hist counts' cap.
Proof.
  intros Hp. unfold compute_hist.
  assert (Hcast : np.astype_int64 counts ≡ₚ np.astype_int64 counts').
  { unfold np.astype_int64. change (map ?f ?l) with (f <$> l).
    by apply fmap_Permutation. }
  by rewrite (bincount_Permutation _ _ Hcast).
Qed.

Lemma compute_hist_Permutation_witness :
  compute_hist [2; 2; 1; 0] (Some 1) = compute_hist [0; 1; 2; 2] (Some 1).
Proof.
  apply (compute_hist_Permutation [2; 2; 1; 0] [0; 1; 2; 2] (Some 1)).
  apply (reverse_Permutation [0; 1; 2; 2]).
Defined.

(** ** The overlay of a table without buckets in range *)

Lemma sum_int64_zeros (n : nat) : np.sum_int64 (replicate n 0) = 0.
Proof.
  unfold np.sum_int64.
  assert (Htot : np.total (replicate n 0) = 0).
  { induction n as [|n IH]; [done|]. cbn [replicate np.total foldr].
    unfold np.total in IH. lia. }
  by rewrite Htot.
Qed.

(** X19: with a cap below the smallest occupancy the overlay divides zero
    by zero: when every bucket holds more than [cap] items, [compute_hist]
    returns cap + 1 frequencies that are all zero, and the normalised
    series [plot_overlay] draws for that table holds cap + 1 times NaN;
    nothing is raised. *)
Theorem overlay_nan_below_smallest (meta : AlgorithmMeta) (counts : list Z)
    (cap : Z) :
  counts ≠ [] -> 0 <= cap ->
  Forall (fun v => cap < v < 2 ^ 63) counts ->
  compute_hist counts (Some cap)
  = Ok (seqZ 0 (cap + 1), replicate (Z.to_nat (cap + 1)) 0)
  /\ overlay_line true (meta, seqZ 0 (cap + 1), replicate (Z.to_nat (cap + 1)) 0)
     = (algorithm meta, seqZ 0 (cap + 1),
        Fractions (replicate (Z.to_nat (cap + 1)) nan)).
Proof.
  intros Hne Hcap Hall. split.
  - destruct counts as [|v r]; [done|].
    assert (Hc : Forall int63_nonneg (v :: r)).
    { eapply Forall_impl; [exact Hall|]. unfold int63_nonneg.
      cbn beta. intros; lia. }
    pose proof (foldl_max_is_max v r) as Hmax.
    destruct (compute_hist_bins _ _ Hc Hmax) as (h & Hlen & Hlk & _ & Hm).
    assert (Htop : cap < foldl Z.max v r).
    { destruct Hmax as [Hin _]. rewrite Forall_forall in Hall.
      specialize (Hall _ Hin). cbn beta in Hall. lia. }
    rewrite Hm by done. rewrite Z.min_l by lia. do 2 f_equal.
    apply list_eq. intros j.
    destruct (decide (j < Z.to_nat (cap + 1))%nat) as [Hj|Hj].
    + rewrite lookup_take_lt, Hlk, lookup_replicate_2 by lia. f_equal.
      unfold occurrences. rewrite filter_none; [done|].
      eapply Forall_impl; [exact Hall|]. cbn beta. intros; lia.
    + rewrite lookup_take_ge by lia. symmetry.
      apply lookup_replicate_None. lia.
  - cbn [overlay_line]. do 2 f_equal.
    rewrite sum_int64_zeros.
    change (map ?f ?l) with (f <$> l). by rewrite fmap_replicate.
Qed.

Lemma overlay_nan_below_smallest_witness :
  compute_hist [3; 2; 3] (Some 1) = Ok (seqZ 0 (1 + 1), replicate (Z.to_nat (1 + 1)) 0)
  /\ overlay_line true
       (Host.meta_of "A" 3 8 None, seqZ 0 (1 + 1), replicate (Z.to_nat (1 + 1)) 0)
     = (algorithm (Host.meta_of "A" 3 8 None), seqZ 0 (1 + 1),
        Fractions (replicate (Z.to_nat (1 + 1)) nan)).
Proof.
  apply (overlay_nan_below_smallest (Host.meta_of "A" 3 8 None) [3; 2; 3] 1).
  - discriminate.
  - lia.
  - repeat constructor; lia.
Defined.

Lemma main_returns_effects_witness :
  let P := Host.platform_of LittleEndian Host.two_algorithms in
  let a := Host.cli "run" None true in
  let eff := (run_script P a).2 in
  path_exists P (run_dir_of P a) = true
  /\ exists (data : list table) (min_max_k : Z),
       data ≠ []
       /\ Forall2 (fun p t => exists counts,
                     load_algorithm P (Path P p) = Ok (t.1.1, counts)
                     /\ compute_hist counts (max_k a) = Ok (t.1.2, t.2))
            (meta_files_of P a) data
       /\ min_max_k ∈ map top_k data
       /\ Forall (fun t => min_max_k <= top_k t) data
       /\ made_dirs eff = [out_dir_of P a]
       /\ saved eff
          = map (per_algorithm_chart P a (out_dir_of P a)) data
              ++ (if overlay a
                  then [overlay_chart P a (out_dir_of P a)
                          (map (cut_to min_max_k) data)]
                  else [])
       /\ printed eff = [lit "Done. Plots written to: " ++ out_dir_of P a].
Proof.
  apply (main_returns_effects
           (Host.platform_of LittleEndian Host.two_algorithms)
           (Host.cli "run" None true)).
  vm_compute. reflexivity.
Defined.

Lemma align_cuts_witness :
  let P := Host.platform_of LittleEndian Host.two_algorithms in
  let a := Host.cli "run" None true in
  let A := Host.meta_of "A" 2 1 (Some "little"%string) in
  let B := Host.meta_of "B" 4 5 (Some "little"%string) in
  let data := [(A, [0; 1], [1; 1]); (B, [0; 1; 2], [1; 1; 2])] in
  exists min_max_k aligned,
    align data = Ok aligned
    /\ (exists t, t ∈ data /\ last t.1.2 = Some min_max_k)
    /\ (forall t, t ∈ data ->
          exists k_last, last t.1.2 = Some k_last /\ min_max_k <= k_last)
    /\ length aligned = length data
    /\ (forall (i : nat) meta k y, data !! i = Some (meta, k, y) ->
          exists k' y',
            aligned !! i = Some (meta, k', y')
            /\ k' = seqZ 0 (min_max_k + 1)
            /\ y' = take (length k') y
            /\ last k' = Some min_max_k
            /\ (last k = Some min_max_k -> k' = k /\ y' = y)
            /\ (length k' <= length k)%nat
            /\ (length y' <= length y)%nat
            /\ length y' = length k')
    /\ (forall s : effects,
          path_exists P (run_dir_of P a) = true ->
          path_mkdir P (out_dir_of P a) = Ok () ->
          run (process P a (out_dir_of P a) (meta_files_of P a))
            (plots_made (out_dir_of P a))
          = (Ok data, s) ->
          run_script P a
          = if overlay a then
              let chart :=
                (overlay_path P (out_dir_of P a),
                 OverlayChart (map (overlay_line true) aligned) (logy a)) in
              match savefig P chart.1 chart.2 with
              | Ok _ => (Ok (), confirmed (with_image s chart) (out_dir_of P a))
              | Raise e => (Raise e, s)
              end
            else (Ok (), confirmed s (out_dir_of P a))).
Proof.
  apply (align_cuts_to_least_last_k
           (Host.platform_of LittleEndian Host.two_algorithms)
           (Host.cli "run" None true)
           [(Host.meta_of "A" 2 1 (Some "little"%string), [0; 1], [1; 1]);
            (Host.meta_of "B" 4 5 (Some "little"%string),
             [0; 1; 2], [1; 1; 2])]).
  - discriminate.
  - repeat constructor.
    + exists 1. split; [lia|]. split; reflexivity.
    + exists 2. split; [lia|]. split; reflexivity.
Defined.

(** The loop on the two algorithms collects the tables of the statement
    above, after the two per-algorithm charts. *)
Example loop_two_algorithms :
  let P := Host.platform_of LittleEndian Host.two_algorithms in
  let a := Host.cli "run" None true in
  path_exists P (run_dir_of P a) = true
  /\ path_mkdir P (out_dir_of P a) = Ok ()
  /\ (run (process P a (out_dir_of P a) (meta_files_of P a))
        (plots_made (out_dir_of P a))).1
     = Ok [(Host.meta_of "A" 2 1 (Some "little"%string), [0; 1], [1; 1]);
           (Host.meta_of "B" 4 5 (Some "little"%string), [0; 1; 2], [1; 1; 2])].
Proof. vm_compute. repeat split; reflexivity. Qed.

(** ** Two algorithms, one image *)

(** X14: the image names of two algorithms can coincide: an identifier
    with a character that is neither alphanumeric nor one of . _ - has the
    image name of another identifier, the one with underscores in the
    places of such characters, so that in one run the later chart is saved
    to the path of the earlier. *)
Theorem per_algorithm_image_collision (P : platform) (alg : str) :
  Exists (fun c => ~ kept P c) alg ->
  exists other,
    other ≠ alg
    /\ length other = length alg
    /\ per_algorithm_image P other = per_algorithm_image P alg.
Proof.
  intros Hex. exists (map (clean_char P) alg). split; [|split].
  - intros Heq. apply Exists_exists in Hex as (c & Hin & Hc).
    apply Hc. rewrite <- Heq in Hin.
    change (map ?f ?l) with (f <$> l) in Hin.
    apply list_elem_of_fmap in Hin as (c0 & -> & _). apply clean_char_kept.
  - apply length_map.
  - unfold per_algorithm_image. do 2 f_equal.
    rewrite !sanitize_filename_map, map_map. apply map_ext. intros c.
    apply clean_char_fixed, clean_char_kept.
Qed.

Lemma per_algorithm_image_collision_witness :
  exists other,
    other ≠ lit "a/b"
    /\ length other = length (lit "a/b")
    /\ per_algorithm_image (Host.platform_of LittleEndian Host.one_algorithm) other
       = per_algorithm_image (Host.platform_of LittleEndian Host.one_algorithm)
           (lit "a/b").
Proof.
  apply (per_algorithm_image_collision
           (Host.platform_of LittleEndian Host.one_algorithm) (lit "a/b")).
  apply Exists_cons_tl, Exists_cons_hd.
  intros [H|[H|[H|H]]]; vm_compute in H; discriminate.
Defined.
